(** * april_tag_generator: layout and drawing of a printable fiducial marker

    Shallow embedding of [generate_fiducial] from
    [src/april_tag_generator.py] and the properties of its layout
    (lines 33-49) and of the drawing it builds (lines 51-143).

    Python floats are embedded as exact rationals ([Qc], canonical
    fractions with Leibniz equality), so every statement below is a
    statement of exact arithmetic: binary64 rounding, overflow to
    infinity and the exceptions that follow from it are not modelled.
    The two external collaborators ([TagGenerator2] and [tag_sizes_v2],
    [svg2rlg]/[renderPDF]) stay outside: the bit matrix and its side
    length are inputs, and writing the files (lines 146-150) is left
    out.  A bitmap is a list of rows; the numpy arrays of the source are
    the rectangular ones. *)

From Stdlib Require Import ZArith QArith Qcanon List String Bool Lia.
From Stdlib Require Import Ascii DecimalString DecimalZ Lqa.
Import ListNotations.

Open Scope Qc_scope.

(* ================================================================== *)
(** * Numbers *)

Module Num.

(** A float literal of the source, e.g. [lit 1.25]. *)
Definition lit (q : Q) : Qc := Q2Qc q.

(** A Python [int] used in float arithmetic. *)
Definition of_int (z : Z) : Qc := Q2Qc (inject_Z z).

(** [str(z)] for a Python [int]. *)
Definition str (z : Z) : string := NilZero.string_of_int (Z.to_int z).

End Num.
Import Num.

(* ================================================================== *)
(** * Exceptions *)

Inductive exn : Set :=
| ZeroDivisionError
| IndexError
| UnboundLocalError.

Inductive result (A : Type) : Type :=
| Ok (a : A)
| Raise (e : exn).
Arguments Ok {A} a.
Arguments Raise {A} e.

Definition rbind {A B} (r : result A) (k : A -> result B) : result B :=
  match r with
  | Ok a => k a
  | Raise e => Raise e
  end.

(** [a / b] on floats: raises on a zero divisor. *)
Definition truediv (a b : Qc) : result Qc :=
  if Qc_eq_bool b 0 then Raise ZeroDivisionError else Ok (a / b).

(* ================================================================== *)
(** * The drawing object (svgwrite) *)

Module Svg.

(** How a coordinate reaches svgwrite: [x * cm] (the string "<x>cm"),
    an f-string ["{x}em"], or the bare number (user units). *)
Inductive unit_suffix : Set := Ucm | Uem | Unone.

Record Length : Set := mkLength { number : Qc; suffix : unit_suffix }.

Definition cm (x : Qc) : Length := mkLength x Ucm.
Definition em (x : Qc) : Length := mkLength x Uem.
Definition bare (x : Qc) : Length := mkLength x Unone.

Definition Pair : Set := (Length * Length)%type.

Inductive Primitive : Set :=
| rect (insert size : Pair) (fill stroke : string)
| text (content : string) (insert : Pair) (font_size : Length)
       (fill stroke : string)
| line (start end_ : Pair) (fill stroke : string) (stroke_width : Length)
| circle (center : Pair) (r : Length) (fill stroke : string)
         (stroke_width : Length).

Record Drawing : Set := mkDrawing { size : Pair; elements : list Primitive }.

(** [svgwrite.Drawing(size=...)]: a drawing with no element yet. *)
Definition new (sz : Pair) : Drawing := mkDrawing sz [].

(** Computations that read the tag, may raise, and mutate [dwg]. *)
Definition M (A : Type) : Type := Drawing -> result (A * Drawing).

Definition ret {A} (a : A) : M A := fun d => Ok (a, d).

Definition bind {A B} (m : M A) (k : A -> M B) : M B :=
  fun d => match m d with
           | Ok (a, d') => k a d'
           | Raise e => Raise e
           end.

Definition lift {A} (r : result A) : M A :=
  fun d => match r with
           | Ok a => Ok (a, d)
           | Raise e => Raise e
           end.

(** [dwg.add(p)]: appends [p] to the elements of the drawing. *)
Definition add (p : Primitive) : M unit :=
  fun d => Ok (tt, mkDrawing (size d) (elements d ++ [p])).

(** [for x in xs: body(x)]. *)
Fixpoint for_ {X} (xs : list X) (body : X -> M unit) : M unit :=
  match xs with
  | [] => ret tt
  | x :: xs' => bind (body x) (fun _ => for_ xs' body)
  end.

End Svg.
Import Svg.

Declare Scope svg_scope.
Delimit Scope svg_scope with svg.
Notation "x <- m ;; k" := (bind m (fun x => k))
  (at level 61, m at next level, right associativity) : svg_scope.
Notation "m ;; k" := (bind m (fun _ => k))
  (at level 61, right associativity) : svg_scope.

(** [range(n)] for a Python [int] [n]: empty when [n <= 0]. *)
Definition range (n : Z) : list nat := seq 0 (Z.to_nat n).

(* ================================================================== *)
(** * The tag bitmap (numpy array of uint8) *)

Definition Tag : Set := list (list Z).

(** [tag[i, j]] for non-negative indices. *)
Definition getitem (tag : Tag) (i j : nat) : result Z :=
  match nth_error tag i with
  | Some row =>
      match nth_error row j with
      | Some v => Ok v
      | None => Raise IndexError
      end
  | None => Raise IndexError
  end.

(** A square [n] by [n] bitmap, as the tag generator hands it over. *)
Definition square (n : nat) (tag : Tag) : Prop :=
  List.length tag = n /\ Forall (fun row => List.length row = n) tag.

(* ================================================================== *)
(** * Layout: lines 33-49 *)

(** The names bound under [if print_label:] (lines 45-49). *)
Record Label : Set := mkLabel {
  font_size : Qc;
  caption_org : Qc * Qc;
  axis_org : Qc * Qc;
  y_point : Qc * Qc;
  z_point : Qc * Qc
}.

Record Geometry : Set := mkGeometry {
  square_side : Qc;
  fiducial_size : Qc * Qc;
  square_size : Qc * Qc;
  april_org : Qc * Qc;
  label : option Label
}.

(** Element-wise sum of two numpy pairs. *)
Definition padd (p q : Qc * Qc) : Qc * Qc := (fst p + fst q, snd p + snd q).

Definition label_geometry (width square_side : Qc) : Label :=
  let font_size := width / lit 5 in
  let caption_org := (square_side * lit 1.25, width + square_side * lit 1.25) in
  let axis_org := (width - square_side * lit 2, width + square_side * lit 1.25) in
  let y_point := padd axis_org (lit 0.75 * square_side, 0) in
  let z_point := padd axis_org (0, - lit 0.75 * square_side) in
  mkLabel font_size caption_org axis_org y_point z_point.

Definition computeGeometry (tag_per_side : Z) (width : Qc) (print_label : bool)
  : result Geometry :=
  rbind (truediv width (of_int (tag_per_side + 2))) (fun square_side =>
  let height :=
    if print_label then width + lit 2 * square_side else width in
  let fiducial_size := (width, height) in
  let square_size := (square_side, square_side) in
  let april_org := (square_side, square_side) in
  Ok (mkGeometry square_side fiducial_size square_size april_org
        (if print_label then Some (label_geometry width square_side)
         else None))).

(* ================================================================== *)
(** * Drawing: lines 51-143 *)

Section Drawing.

Local Open Scope svg_scope.
Local Open Scope string_scope.

Variable tag : Tag.
Variable tag_per_side : Z.
Variable tag_id : Z.

(** Lines 54-61: the white sheet. *)
Definition background (g : Geometry) : Primitive :=
  rect (bare 0, bare 0)
       (cm (fst (fiducial_size g)), cm (snd (fiducial_size g)))
       "white" "white".

(** Lines 62-69: the black block under the modules. *)
Definition tag_block (g : Geometry) : Primitive :=
  rect (cm (fst (april_org g)), cm (snd (april_org g)))
       (cm (of_int tag_per_side * fst (square_size g)),
        cm (of_int tag_per_side * snd (square_size g)))
       "black" "black".

(** Lines 74-83: the white square of cell [(i, j)]. *)
Definition module_rect (g : Geometry) (i j : nat) : Primitive :=
  let x := fst (april_org g) + fst (square_size g) * of_int (Z.of_nat j) in
  let y := fst (april_org g) + fst (square_size g) * of_int (Z.of_nat i) in
  rect (cm x, cm y)
       (cm (fst (square_size g)), cm (snd (square_size g)))
       "white" "white".

(** Lines 71-83. *)
Definition draw_modules (g : Geometry) : M unit :=
  for_ (range tag_per_side) (fun i =>
    for_ (range tag_per_side) (fun j =>
      v <- lift (getitem tag i j) ;;
      if (v =? 255)%Z then add (module_rect g i j) else ret tt)).

(** Lines 87-95. *)
Definition caption (l : Label) : Primitive :=
  text ("id: " ++ str tag_id)
       (cm (fst (caption_org l)), cm (snd (caption_org l)))
       (em (font_size l)) "black" "black".

(** Lines 98-106 and 117-125. *)
Definition axis_line (l : Label) (tip : Qc * Qc) : Primitive :=
  line (cm (fst (axis_org l)), cm (snd (axis_org l)))
       (cm (fst tip), cm (snd tip))
       "black" "black" (bare (font_size l)).

(** Lines 107-115. *)
Definition y_text (l : Label) : Primitive :=
  text "y"
       (cm (fst (y_point l) * lit 1.04), cm (snd (y_point l)))
       (em (font_size l * lit 0.7)) "black" "black".

(** Lines 126-134. *)
Definition z_text (l : Label) : Primitive :=
  text "z"
       (cm (fst (z_point l) * lit 0.9), cm (snd (z_point l) * lit 1.05))
       (em (font_size l * lit 0.7)) "black" "black".

(** Lines 135-143. *)
Definition axis_dot (l : Label) : Primitive :=
  circle (cm (fst (axis_org l)), cm (snd (axis_org l)))
         (bare (font_size l)) "black" "black" (bare (font_size l)).

(** Lines 85-143.  The label names are bound only when the layout ran
    with [print_label] set. *)
Definition draw_label (g : Geometry) : M unit :=
  match label g with
  | None => lift (Raise UnboundLocalError)
  | Some l =>
      add (caption l) ;;
      add (axis_line l (y_point l)) ;;
      add (y_text l) ;;
      add (axis_line l (z_point l)) ;;
      add (z_text l) ;;
      add (axis_dot l)
  end.

(** Lines 54-143, on the drawing object [dwg]. *)
Definition draw (g : Geometry) (print_label : bool) : M unit :=
  add (background g) ;;
  add (tag_block g) ;;
  draw_modules g ;;
  if print_label then draw_label g else ret tt.

(** Lines 51-143: a fresh drawing of the size of the sheet, filled. *)
Definition render (g : Geometry) (print_label : bool) : result Drawing :=
  let dwg := new (cm (fst (fiducial_size g)), cm (snd (fiducial_size g))) in
  match draw g print_label dwg with
  | Ok (_, dwg') => Ok dwg'
  | Raise e => Raise e
  end.

(** The sequence of primitives of the finished drawing. *)
Definition buildDrawing (g : Geometry) (print_label : bool)
  : result (list Primitive) :=
  rbind (render g print_label) (fun dwg => Ok (elements dwg)).

End Drawing.

(** Lines 33-143 of [generate_fiducial], given the bitmap [tag] of
    [tag_id] and its side [tag_per_side]. *)
Definition generate_fiducial (tag : Tag) (tag_per_side : Z) (tag_id : Z)
    (width : Qc) (print_label : bool) : result Drawing :=
  rbind (computeGeometry tag_per_side width print_label) (fun g =>
  render tag tag_per_side tag_id g print_label).

(* ================================================================== *)
(** * Reading a drawing *)

Definition is_rect (p : Primitive) : bool :=
  match p with rect _ _ _ _ => true | _ => false end.
Definition is_text (p : Primitive) : bool :=
  match p with text _ _ _ _ _ => true | _ => false end.
Definition is_line (p : Primitive) : bool :=
  match p with line _ _ _ _ _ => true | _ => false end.
Definition is_circle (p : Primitive) : bool :=
  match p with circle _ _ _ _ _ => true | _ => false end.

(** The cells of an [n] by [n] bitmap, row by row. *)
Definition cells (n : nat) : list (nat * nat) :=
  flat_map (fun i => map (fun j => (i, j)) (seq 0 n)) (seq 0 n).

(** The value stored at a cell ([0] outside the bitmap). *)
Definition cell_value (tag : Tag) (c : nat * nat) : Z :=
  nth (snd c) (nth (fst c) tag []) 0%Z.

Definition is_light (tag : Tag) (c : nat * nat) : bool :=
  (cell_value tag c =? 255)%Z.

(** The light cells of the bitmap, row by row. *)
Definition light_cells (n : nat) (tag : Tag) : list (nat * nat) :=
  filter (is_light tag) (cells n).

(** Every scalar a primitive hands to svgwrite, with its unit. *)
Definition dimensions (p : Primitive) : list Length :=
  match p with
  | rect (x, y) (w, h) _ _ => [x; y; w; h]
  | text _ (x, y) fs _ _ => [x; y; fs]
  | line (x1, y1) (x2, y2) _ _ sw => [x1; y1; x2; y2; sw]
  | circle (x, y) r _ _ sw => [x; y; r; sw]
  end.

Definition in_cm (d : Length) : bool :=
  match suffix d with Ucm => true | _ => false end.

(** The module size of the layout for a side of [n] modules: line 33
    without the zero-divisor check. *)
Definition module_size (n : Z) (width : Qc) : Qc := width / of_int (n + 2).

(** The layout for a side of [n] modules: lines 33-49 without the
    zero-divisor check. *)
Definition layout (n : Z) (width : Qc) (print_label : bool) : Geometry :=
  let m := module_size n width in
  mkGeometry m
    (width, if print_label then width + lit 2 * m else width)
    (m, m) (m, m)
    (if print_label then Some (label_geometry width m) else None).

(** A white rectangle. *)
Definition is_light_rect (p : Primitive) : bool :=
  match p with
  | rect _ _ fill _ => String.eqb fill "white"
  | _ => false
  end.

(* ================================================================== *)
(** * What a computation does to the drawing object *)

(** The drawing [d] with [ps] appended to its elements. *)
Definition extend (d : Drawing) (ps : list Primitive) : Drawing :=
  mkDrawing (size d) (elements d ++ ps).

(** [appends m r]: from whatever drawing it starts, [m] either raises
    (when [r] does) or returns the value of [r] and leaves the drawing
    extended by the primitives of [r], touching nothing else. *)
Definition appends {A} (m : M A) (r : result (A * list Primitive)) : Prop :=
  forall d, m d = rbind r (fun aps => Ok (fst aps, extend d (snd aps))).

(** [emits m ps]: [m] succeeds and appends exactly [ps]. *)
Definition emits (m : M unit) (ps : list Primitive) : Prop :=
  appends m (Ok (tt, ps)).

(** [framed m]: [m] only ever appends, whatever it computes. *)
Definition framed {A} (m : M A) : Prop := exists r, appends m r.

(* ================================================================== *)
(** * The emission order of section 4.2, written out *)

(** Item 3: one white square per light cell, row by row. *)
Definition light_rects (tag : Tag) (tag_per_side : Z) (g : Geometry)
  : list Primitive :=
  map (fun c => module_rect g (fst c) (snd c))
      (light_cells (Z.to_nat tag_per_side) tag).

(** Items 4 to 7: caption, y axis and its letter, z axis and its letter,
    and the dot at the origin of the axes. *)
Definition label_primitives (tag_id : Z) (l : Label) : list Primitive :=
  [caption tag_id l;
   axis_line l (y_point l); y_text l;
   axis_line l (z_point l); z_text l;
   axis_dot l].

(** Items 1 to 7 in order. *)
Definition emission (tag : Tag) (tag_per_side tag_id : Z) (g : Geometry)
    (print_label : bool) : list Primitive :=
  [background g; tag_block tag_per_side g]
  ++ light_rects tag tag_per_side g
  ++ (if print_label
      then match label g with
           | Some l => label_primitives tag_id l
           | None => []
           end
      else []).

(* ================================================================== *)
(** * The scenario of section 8 *)

(** A 4 by 4 bitmap whose only light cell is [(0, 0)]. *)
Definition scenario_tag : Tag :=
  [[255; 0; 0; 0]; [0; 0; 0; 0]; [0; 0; 0; 0]; [0; 0; 0; 0]]%Z.

(** [x] is the decimal [d] when rounded to four places. *)
Definition approx4 (x : Qc) (d : Q) : Prop :=
  lit d - lit 0.00005 <= x /\ x <= lit d + lit 0.00005.

Definition content_of (p : Primitive) : string :=
  match p with
  | text content _ _ _ _ => content
  | _ => ""
  end.

(** The labelled scenario: width 5, tag 7, label on, with the caption
    expected at about [(cx, cy)]: the three rectangles of the plain
    scenario and, besides, the caption "id: 7" there, two lines, the
    letters "y" and "z", and one circle on the origin of the axes. *)
Definition labelled_scenario (cx cy : Q) : Prop :=
  exists g l prims,
    computeGeometry 4 (lit 5) true = Ok g /\ label g = Some l /\
    buildDrawing scenario_tag 4 7 g true = Ok prims /\
    approx4 (fst (caption_org l)) cx /\
    approx4 (snd (caption_org l)) cy /\
    In (text "id: 7" (cm (fst (caption_org l)), cm (snd (caption_org l)))
             (em (font_size l)) "black" "black") prims /\
    List.length (filter is_rect prims) = 3%nat /\
    List.length (filter is_line prims) = 2%nat /\
    map content_of (filter is_text prims) = ["id: 7"; "y"; "z"]%string /\
    filter is_circle prims =
      [circle (cm (fst (axis_org l)), cm (snd (axis_org l)))
              (bare (font_size l)) "black" "black" (bare (font_size l))].

(* ================================================================== *)
(** * Units *)

Definition in_em (d : Length) : bool :=
  match suffix d with Uem => true | _ => false end.

Definition is_bare (d : Length) : bool :=
  match suffix d with Unone => true | _ => false end.

(** Every scalar of every primitive carries the centimetre suffix. *)
Definition all_in_cm (prims : list Primitive) : bool :=
  forallb (fun p => forallb in_cm (dimensions p)) prims.

(** The units the source gives to the scalars of a primitive: positions
    and rectangle sizes in centimetres, but for an origin written as the
    literal [(0, 0)]; font sizes in em; stroke widths and radii bare. *)
Definition units_as_drawn (p : Primitive) : bool :=
  match p with
  | rect (x, y) (w, h) _ _ =>
      ((in_cm x && in_cm y)
       || (is_bare x && is_bare y
           && Qc_eq_bool (number x) 0 && Qc_eq_bool (number y) 0))
      && in_cm w && in_cm h
  | text _ (x, y) fs _ _ => in_cm x && in_cm y && in_em fs
  | line (x1, y1) (x2, y2) _ _ sw =>
      in_cm x1 && in_cm y1 && in_cm x2 && in_cm y2 && is_bare sw
  | circle (x, y) r _ _ sw => in_cm x && in_cm y && is_bare r && is_bare sw
  end.

(** The units of every primitive but the sheet rectangle: positions and
    rectangle sizes in centimetres, font sizes in em, stroke widths and
    radii bare. *)
Definition units_after_sheet (p : Primitive) : bool :=
  match p with
  | rect (x, y) (w, h) _ _ => in_cm x && in_cm y && in_cm w && in_cm h
  | text _ (x, y) fs _ _ => in_cm x && in_cm y && in_em fs
  | line (x1, y1) (x2, y2) _ _ sw =>
      in_cm x1 && in_cm y1 && in_cm x2 && in_cm y2 && is_bare sw
  | circle (x, y) r _ _ sw => in_cm x && in_cm y && is_bare r && is_bare sw
  end.

(* ================================================================== *)
(** * Bitmaps of any shape *)

(** What the body of the inner loop (lines 73-83) does for cell
    [(i, j)]: nothing to append, one white square to append, or no
    outcome when [tag[i, j]] is out of range. *)
Definition cell_outcome (tag : Tag) (g : Geometry) (i j : nat)
  : option (list Primitive) :=
  match getitem tag i j with
  | Ok v => Some (if (v =? 255)%Z then [module_rect g i j] else [])
  | Raise _ => None
  end.

(** The primitives a loop appends when every round has an outcome. *)
Fixpoint gather {X} (f : X -> option (list Primitive)) (xs : list X)
  : option (list Primitive) :=
  match xs with
  | [] => Some []
  | x :: xs' =>
      match f x, gather f xs' with
      | Some ps, Some qs => Some (ps ++ qs)
      | _, _ => None
      end
  end.

(** [outcome m o e]: [m] appends [ps] when [o] is [Some ps], and raises
    [e] from every drawing when [o] is [None]. *)
Definition outcome (m : M unit) (o : option (list Primitive)) (e : exn)
  : Prop :=
  match o with
  | Some ps => emits m ps
  | None => forall d, m d = Raise e
  end.

(** A bitmap with [rows] rows of [cols] values each: a numpy array of
    shape [(rows, cols)]. *)
Definition rectangular (rows cols : nat) (tag : Tag) : Prop :=
  List.length tag = rows /\ Forall (fun row => List.length row = cols) tag.

(** Every cell of the top-left [n] by [n] corner is in the bitmap. *)
Definition in_bounds (n : nat) (tag : Tag) : bool :=
  forallb (fun c => match getitem tag (fst c) (snd c) with
                    | Ok _ => true
                    | Raise _ => false
                    end) (cells n).

(* ================================================================== *)
(** * Places on the sheet *)

(** A rectangle with positive sides that lies on a sheet [W] wide and
    [H] high; nothing is asked of other primitives. *)
Definition rect_on_sheet (W H : Qc) (p : Primitive) : Prop :=
  match p with
  | rect (x, y) (w, h) _ _ =>
      0 <= number x /\ 0 <= number y /\ 0 < number w /\ 0 < number h /\
      number x + number w <= W /\ number y + number h <= H
  | _ => True
  end.

(** The band of two modules under the square part of the sheet. *)
Definition in_band (width m : Qc) (pt : Qc * Qc) : Prop :=
  (0 <= fst pt /\ fst pt <= width) /\
  (width <= snd pt /\ snd pt <= width + lit 2 * m).

(** Where a text starts, as numbers. *)
Definition anchor (p : Primitive) : Qc * Qc :=
  match p with
  | text _ (x, y) _ _ _ => (number x, number y)
  | _ => (0, 0)
  end.

(* ================================================================== *)
(** * Scaling *)

(** A scalar made [k] times as large, in the same unit. *)
Definition scale_length (k : Qc) (d : Length) : Length :=
  mkLength (k * number d) (suffix d).

Definition scale_pair (k : Qc) (p : Pair) : Pair :=
  (scale_length k (fst p), scale_length k (snd p)).

(** A primitive with every scalar made [k] times as large. *)
Definition scale (k : Qc) (p : Primitive) : Primitive :=
  match p with
  | rect ins sz f s => rect (scale_pair k ins) (scale_pair k sz) f s
  | text c ins fs f s => text c (scale_pair k ins) (scale_length k fs) f s
  | line a b f s sw =>
      line (scale_pair k a) (scale_pair k b) f s (scale_length k sw)
  | circle c r f s sw =>
      circle (scale_pair k c) (scale_length k r) f s (scale_length k sw)
  end.

Definition scale_drawing (k : Qc) (d : Drawing) : Drawing :=
  mkDrawing (scale_pair k (size d)) (map (scale k) (elements d)).

(* ================================================================== *)
(** * File names: line 27 *)

(** [f"april_{tag_family}_{tag_id}_{width}cm"], where [width_text] is the
    text Python prints for [width] (["5"] for the int [5]). *)
Definition filename (tag_family : string) (tag_id : Z) (width_text : string)
  : string :=
  "april_" ++ tag_family ++ "_" ++ str tag_id ++ "_" ++ width_text ++ "cm".

(** The characters of a string. *)
Definition chars (s : string) : list ascii := list_ascii_of_string s.

(** No underscore in the text, as in any number Python prints. *)
Definition no_underscore (s : string) : Prop := ~ In "_"%char (chars s).

(* ================================================================== *)
(** * Arithmetic of the embedded floats *)

(** The operations of [Qc] are those of [Q] up to [Qeq]. *)

Lemma this_plus (x y : Qc) : (this (x + y) == this x + this y)%Q.
Proof. apply Qred_correct. Qed.

Lemma this_mult (x y : Qc) : (this (x * y) == this x * this y)%Q.
Proof. apply Qred_correct. Qed.

Lemma this_opp (x : Qc) : (this (- x) == - this x)%Q.
Proof. apply Qred_correct. Qed.

Lemma this_inv (x : Qc) : (this (/ x) == / this x)%Q.
Proof. apply Qred_correct. Qed.

Lemma this_minus (x y : Qc) : (this (x - y) == this x - this y)%Q.
Proof. unfold Qcminus. rewrite this_plus, this_opp. reflexivity. Qed.

Lemma this_div (x y : Qc) : (this (x / y) == this x / this y)%Q.
Proof. unfold Qcdiv. rewrite this_mult, this_inv. reflexivity. Qed.

Lemma this_lit (q : Q) : (this (lit q) == q)%Q.
Proof. apply Qred_correct. Qed.

Lemma this_of_int (z : Z) : (this (of_int z) == inject_Z z)%Q.
Proof. apply Qred_correct. Qed.

(** Turns an equation of [Qc] into the same equation of [Q] up to
    [Qeq], where [field] knows the numerals. *)
Ltac to_Q :=
  apply Qc_is_canon;
  repeat (rewrite this_plus || rewrite this_mult || rewrite this_opp
          || rewrite this_inv || rewrite this_minus || rewrite this_div
          || rewrite this_lit || rewrite this_of_int).

(** Closes [mkLength a u = mkLength b u] by [ring] on the numbers. *)
Ltac same_length :=
  match goal with
  | |- mkLength _ ?u = mkLength _ ?u =>
      apply (f_equal (fun x => mkLength x u)); unfold Qcdiv; ring
  end.

Ltac same_pair := apply f_equal2; same_length.

Lemma side_nonzero_Q (n : Z) : (1 <= n)%Z -> ~ (inject_Z n + 2 == 0)%Q.
Proof.
  intros H E. change 2%Q with (inject_Z 2) in E. rewrite <- inject_Z_plus in E.
  change 0%Q with (inject_Z 0) in E.
  apply (proj1 (inject_Z_injective _ _)) in E. lia.
Qed.

Lemma of_int_pos (z : Z) : (0 < z)%Z -> 0 < of_int z.
Proof.
  intros H. unfold Qclt, of_int, Q2Qc, this. rewrite !Qred_correct.
  rewrite (Zlt_Qlt 0 z) in H. exact H.
Qed.

Lemma div_pos (a b : Qc) : 0 < a -> 0 < b -> 0 < a / b.
Proof.
  unfold Qclt. intros Ha Hb. rewrite this_div.
  apply Qmult_lt_0_compat; [exact Ha | apply Qinv_lt_0_compat; exact Hb].
Qed.

Lemma of_int_inj (a b : Z) : of_int a = of_int b -> a = b.
Proof.
  intros H. apply (f_equal this) in H. unfold of_int, Q2Qc, this in H.
  apply inject_Z_injective.
  rewrite <- (Qred_correct (inject_Z a)), <- (Qred_correct (inject_Z b)).
  rewrite H. reflexivity.
Qed.

Lemma of_int_0 : of_int 0 = 0.
Proof. apply Qc_is_canon. reflexivity. Qed.

Lemma of_int_nonzero (z : Z) : z <> 0%Z -> of_int z <> 0.
Proof.
  intros Hz H. apply Hz. apply of_int_inj. rewrite H. symmetry. exact of_int_0.
Qed.

Lemma Qc_eq_bool_false (x y : Qc) : x <> y -> Qc_eq_bool x y = false.
Proof.
  intros H. unfold Qc_eq_bool. destruct (Qc_eq_dec x y); [contradiction | reflexivity].
Qed.

Lemma Qc_eq_bool_refl (x : Qc) : Qc_eq_bool x x = true.
Proof.
  unfold Qc_eq_bool. destruct (Qc_eq_dec x x); [reflexivity | contradiction].
Qed.

Lemma truediv_ok (a b : Qc) : b <> 0 -> truediv a b = Ok (a / b).
Proof. intros H. unfold truediv. rewrite (Qc_eq_bool_false _ _ H). reflexivity. Qed.

Lemma truediv_zero (a : Qc) : truediv a 0 = Raise ZeroDivisionError.
Proof. unfold truediv. rewrite Qc_eq_bool_refl. reflexivity. Qed.

Lemma div_mul_cancel (a b : Qc) : b <> 0 -> a / b * b = a.
Proof. intros H. field. exact H. Qed.

Lemma div_nonzero (a b : Qc) : a <> 0 -> b <> 0 -> a / b <> 0.
Proof.
  intros Ha Hb H. apply Ha.
  rewrite <- (div_mul_cancel a b Hb), H. ring.
Qed.

Lemma pos_nonzero (a : Qc) : 0 < a -> a <> 0.
Proof. intros H E. rewrite E in H. exact (Qclt_not_eq _ _ H eq_refl). Qed.

(* ================================================================== *)
(** * The layout on valid input *)

Section Layout.

Variable n : Z.
Variable width : Qc.
Hypothesis n_pos : (1 <= n)%Z.

Lemma side_nonzero : of_int (n + 2) <> 0.
Proof. apply of_int_nonzero. lia. Qed.

Lemma computeGeometry_ok (print_label : bool) :
  computeGeometry n width print_label =
  Ok (layout n width print_label).
Proof.
  unfold computeGeometry. rewrite (truediv_ok _ _ side_nonzero). reflexivity.
Qed.

Lemma module_size_pos : 0 < width -> 0 < module_size n width.
Proof. intros Hw. apply div_pos; [exact Hw | apply of_int_pos; lia]. Qed.

Lemma module_size_nonzero : 0 < width -> module_size n width <> 0.
Proof. intros Hw. apply pos_nonzero, module_size_pos, Hw. Qed.

Lemma module_size_exact : module_size n width * of_int (n + 2) = width.
Proof. apply div_mul_cancel, side_nonzero. Qed.

(** The block and one module on each side fill the width. *)
Lemma block_and_margins :
  module_size n width + of_int n * module_size n width + module_size n width
  = width.
Proof.
  unfold module_size. to_Q. rewrite inject_Z_plus. field.
  apply side_nonzero_Q, n_pos.
Qed.

End Layout.

(** Outside the contract: a side of [-2] modules divides by zero. *)
Lemma computeGeometry_raises (width : Qc) (print_label : bool) :
  computeGeometry (-2) width print_label = Raise ZeroDivisionError.
Proof.
  unfold computeGeometry. change (of_int (-2 + 2)) with (of_int 0).
  rewrite of_int_0, truediv_zero. reflexivity.
Qed.

(* ================================================================== *)
(** * Frame lemmas for the drawing monad *)

Lemma extend_nil (d : Drawing) : extend d [] = d.
Proof. destruct d as [sz es]. unfold extend. simpl. rewrite app_nil_r. reflexivity. Qed.

Lemma extend_extend (d : Drawing) (ps qs : list Primitive) :
  extend (extend d ps) qs = extend d (ps ++ qs).
Proof. unfold extend. simpl. rewrite app_assoc. reflexivity. Qed.

Lemma appends_ret {A} (a : A) : appends (ret a) (Ok (a, [])).
Proof. intros d. simpl. rewrite extend_nil. reflexivity. Qed.

Lemma appends_add (p : Primitive) : appends (add p) (Ok (tt, [p])).
Proof. intros d. reflexivity. Qed.

Lemma appends_lift {A} (r : result A) :
  appends (lift r) (rbind r (fun a => Ok (a, []))).
Proof.
  intros d. destruct r as [a | e]; simpl; [rewrite extend_nil|]; reflexivity.
Qed.

Lemma appends_bind {A B} (m : M A) (k : A -> M B) r (rk : A -> _) :
  appends m r ->
  (forall a, appends (k a) (rk a)) ->
  appends (bind m k)
    (rbind r (fun aps =>
       rbind (rk (fst aps)) (fun bqs => Ok (fst bqs, snd aps ++ snd bqs)))).
Proof.
  intros Hm Hk d. unfold bind. rewrite Hm.
  destruct r as [[a ps] | e]; simpl; [| reflexivity].
  rewrite Hk. destruct (rk a) as [[b qs] | e]; simpl; [| reflexivity].
  rewrite extend_extend. reflexivity.
Qed.

Lemma emits_ret : emits (ret tt) [].
Proof. exact (appends_ret tt). Qed.

Lemma emits_add (p : Primitive) : emits (add p) [p].
Proof. exact (appends_add p). Qed.

Lemma emits_seq (m : M unit) (k : unit -> M unit) (ps qs : list Primitive) :
  emits m ps -> emits (k tt) qs -> emits (bind m k) (ps ++ qs).
Proof.
  intros Hm Hk d. unfold bind. rewrite Hm. simpl. rewrite Hk. simpl.
  rewrite extend_extend. reflexivity.
Qed.

Lemma emits_for {X} (xs : list X) (body : X -> M unit) (f : X -> list Primitive) :
  (forall x, In x xs -> emits (body x) (f x)) ->
  emits (for_ xs body) (flat_map f xs).
Proof.
  induction xs as [| x xs IH]; intros H; simpl.
  - exact emits_ret.
  - apply emits_seq.
    + apply H. left. reflexivity.
    + apply IH. intros y Hy. apply H. right. exact Hy.
Qed.

Lemma framed_bind {A B} (m : M A) (k : A -> M B) :
  framed m -> (forall a, framed (k a)) -> framed (bind m k).
Proof.
  intros [r Hr] Hk.
  destruct r as [[a ps] | e].
  - destruct (Hk a) as [ra Hra].
    exists (rbind ra (fun bqs => Ok (fst bqs, ps ++ snd bqs))).
    intros d. unfold bind. rewrite Hr. simpl. rewrite Hra.
    destruct ra as [[b qs] | e]; simpl; [| reflexivity].
    rewrite extend_extend. reflexivity.
  - exists (Raise e). intros d. unfold bind. rewrite Hr. reflexivity.
Qed.

Lemma framed_for {X} (xs : list X) (body : X -> M unit) :
  (forall x, framed (body x)) -> framed (for_ xs body).
Proof.
  intros H. induction xs as [| x xs IH]; simpl.
  - eexists. apply appends_ret.
  - apply framed_bind; [apply H | intros _; exact IH].
Qed.

(* ================================================================== *)
(** * The module loop on a square bitmap *)

Lemma getitem_square (n : nat) (tag : Tag) (i j : nat) :
  square n tag -> (i < n)%nat -> (j < n)%nat ->
  getitem tag i j = Ok (cell_value tag (i, j)).
Proof.
  intros [Hlen Hrows] Hi Hj. unfold getitem, cell_value. simpl.
  assert (Hrow : nth_error tag i = Some (nth i tag [])).
  { apply nth_error_nth'. lia. }
  rewrite Hrow.
  assert (Hl : List.length (nth i tag []) = n).
  { rewrite Forall_forall in Hrows. apply Hrows.
    apply nth_error_In with i. exact Hrow. }
  rewrite (nth_error_nth' (nth i tag []) 0%Z) by lia.
  reflexivity.
Qed.

Section Cells.

Variables (A : Type) (P : nat * nat -> bool) (F : nat * nat -> A).

Lemma row_filter_map (i : nat) (js : list nat) :
  flat_map (fun j => if P (i, j) then [F (i, j)] else []) js =
  map F (filter P (map (fun j => (i, j)) js)).
Proof.
  induction js as [| j js IH]; simpl; [reflexivity |].
  rewrite IH. destruct (P (i, j)); reflexivity.
Qed.

Lemma grid_filter_map (rows js : list nat) :
  flat_map (fun i => flat_map (fun j => if P (i, j) then [F (i, j)] else []) js)
           rows =
  map F (filter P (flat_map (fun i => map (fun j => (i, j)) js) rows)).
Proof.
  induction rows as [| i rows IH]; simpl; [reflexivity |].
  rewrite IH, row_filter_map, filter_app, map_app. reflexivity.
Qed.

End Cells.

Lemma in_cells (n i j : nat) : In (i, j) (cells n) <-> (i < n)%nat /\ (j < n)%nat.
Proof.
  unfold cells. rewrite in_flat_map. split.
  - intros [i' [Hi' H]]. rewrite in_map_iff in H. destruct H as [j' [E Hj']].
    inversion E; subst. rewrite in_seq in Hi', Hj'. lia.
  - intros [Hi Hj]. exists i. split; [rewrite in_seq; lia |].
    rewrite in_map_iff. exists j. split; [reflexivity | rewrite in_seq; lia].
Qed.

Lemma in_light_cells (n : nat) (tag : Tag) (i j : nat) :
  In (i, j) (light_cells n tag) <->
  (i < n)%nat /\ (j < n)%nat /\ cell_value tag (i, j) = 255%Z.
Proof.
  unfold light_cells, is_light. rewrite filter_In, in_cells, Z.eqb_eq. tauto.
Qed.

Section Modules.

Variables (tag : Tag) (tag_per_side : Z) (g : Geometry).
Hypothesis tag_square : square (Z.to_nat tag_per_side) tag.

Lemma cell_emits (i j : nat) :
  In i (range tag_per_side) -> In j (range tag_per_side) ->
  emits (bind (lift (getitem tag i j))
           (fun v => if (v =? 255)%Z then add (module_rect g i j) else ret tt))
        (if is_light tag (i, j) then [module_rect g i j] else []).
Proof.
  unfold range. rewrite !in_seq. intros Hi Hj d.
  unfold bind, lift, is_light.
  rewrite (getitem_square _ _ _ _ tag_square) by lia.
  destruct (cell_value tag (i, j) =? 255)%Z.
  - apply emits_add.
  - apply emits_ret.
Qed.

Lemma draw_modules_emits :
  emits (draw_modules tag tag_per_side g)
        (map (fun c => module_rect g (fst c) (snd c))
             (light_cells (Z.to_nat tag_per_side) tag)).
Proof.
  unfold light_cells, cells.
  rewrite <- (grid_filter_map _ (is_light tag)
                (fun c => module_rect g (fst c) (snd c))).
  unfold draw_modules. apply emits_for. intros i Hi.
  apply emits_for. intros j Hj. apply cell_emits; assumption.
Qed.

End Modules.

(* ================================================================== *)
(** * The whole drawing *)

Section Whole.

Variables (tag : Tag) (tag_per_side tag_id : Z) (g : Geometry).
Variable print_label : bool.
Hypothesis tag_square : square (Z.to_nat tag_per_side) tag.
Hypothesis label_bound : print_label = true -> label g <> None.

Lemma draw_label_emits (l : Label) :
  label g = Some l -> emits (draw_label tag_id g) (label_primitives tag_id l).
Proof.
  intros Hl. unfold draw_label. rewrite Hl. unfold label_primitives.
  repeat (apply (emits_seq _ _ [_]); [apply emits_add |]).
  apply emits_add.
Qed.

Lemma draw_emits :
  emits (draw tag tag_per_side tag_id g print_label)
        (emission tag tag_per_side tag_id g print_label).
Proof.
  unfold draw, emission.
  apply (emits_seq _ _ [_]); [apply emits_add |].
  apply (emits_seq _ _ [_]); [apply emits_add |].
  apply emits_seq; [apply draw_modules_emits; exact tag_square |].
  destruct print_label.
  - destruct (label g) as [l |] eqn:Hl.
    + apply draw_label_emits. exact Hl.
    + exfalso. apply label_bound; reflexivity.
  - apply emits_ret.
Qed.

Lemma render_ok :
  render tag tag_per_side tag_id g print_label =
  Ok (mkDrawing (cm (fst (fiducial_size g)), cm (snd (fiducial_size g)))
                (emission tag tag_per_side tag_id g print_label)).
Proof. unfold render. rewrite draw_emits. reflexivity. Qed.

Lemma buildDrawing_ok :
  buildDrawing tag tag_per_side tag_id g print_label =
  Ok (emission tag tag_per_side tag_id g print_label).
Proof. unfold buildDrawing. rewrite render_ok. reflexivity. Qed.

End Whole.

Lemma draw_framed (tag : Tag) (tag_per_side tag_id : Z) (g : Geometry)
    (print_label : bool) :
  framed (draw tag tag_per_side tag_id g print_label).
Proof.
  assert (Hadd : forall p, framed (add p)).
  { intros p. eexists. apply appends_add. }
  assert (Hret : framed (ret tt)).
  { eexists. apply appends_ret. }
  unfold draw.
  repeat (apply framed_bind; [apply Hadd | intros _]).
  apply framed_bind.
  - unfold draw_modules. apply framed_for. intros i. apply framed_for. intros j.
    apply framed_bind; [eexists; apply appends_lift |].
    intros v. destruct (v =? 255)%Z; [apply Hadd | apply Hret].
  - intros _. destruct print_label; [| apply Hret].
    unfold draw_label. destruct (label g) as [l |].
    + repeat (apply framed_bind; [apply Hadd | intros _]). apply Hadd.
    + eexists. apply appends_lift.
Qed.

Lemma draw_size (tag : Tag) (tag_per_side tag_id : Z) (g : Geometry)
    (print_label : bool) (d d' : Drawing) (u : unit) :
  draw tag tag_per_side tag_id g print_label d = Ok (u, d') -> size d' = size d.
Proof.
  destruct (draw_framed tag tag_per_side tag_id g print_label) as [r Hr].
  rewrite Hr. destruct r as [[a ps] | e]; simpl; intros H; inversion H.
  reflexivity.
Qed.

Lemma render_size (tag : Tag) (tag_per_side tag_id : Z) (g : Geometry)
    (print_label : bool) (dwg : Drawing) :
  render tag tag_per_side tag_id g print_label = Ok dwg ->
  size dwg = (cm (fst (fiducial_size g)), cm (snd (fiducial_size g))).
Proof.
  unfold render.
  destruct (draw _ _ _ _ _ _) as [[u d'] | e] eqn:E; intros H; inversion H.
  subst. apply draw_size in E. exact E.
Qed.

(* ================================================================== *)
(** * Layout properties *)

(** C1: for every matrix dimension [n >= 1] and every width [> 0], the
    layout succeeds and its module size is [width / (n + 2)]; in exact
    arithmetic the module size times [n + 2] is the width. *)
Theorem C1_module_size (n : Z) (width : Qc) (print_label : bool) :
  (1 <= n)%Z -> 0 < width ->
  exists g,
    computeGeometry n width print_label = Ok g /\
    square_side g = width / of_int (n + 2) /\
    square_side g * of_int (n + 2) = width.
Proof.
  intros Hn _. eexists. split; [apply computeGeometry_ok, Hn |].
  split; [reflexivity | apply module_size_exact, Hn].
Qed.

Lemma C1_module_size_witness :
  exists g,
    computeGeometry 4 (lit 5) true = Ok g /\
    square_side g = lit 5 / of_int (4 + 2) /\
    square_side g * of_int (4 + 2) = lit 5.
Proof. apply (C1_module_size 4 (lit 5) true); [lia | reflexivity]. Defined.

(** C2: for every [n >= 1] and width [> 0] the layout returns a sheet
    [width] wide and [width + 2 * (width / (n + 2))] high with a label,
    [width] high without; the module size it adds twice is
    [width / (n + 2)].  On a square bitmap [generate_fiducial] returns a
    drawing, and any drawing it returns has that size, in centimetres. *)
Theorem C2_canvas_size (n : Z) (width : Qc) (print_label : bool) :
  (1 <= n)%Z -> 0 < width ->
  exists g,
    computeGeometry n width print_label = Ok g /\
    square_side g = width / of_int (n + 2) /\
    fiducial_size g =
      (width,
       if print_label then width + lit 2 * (width / of_int (n + 2))
       else width) /\
    fiducial_size g =
      (width, if print_label then width + lit 2 * square_side g else width) /\
    fst (fiducial_size g) = width /\
    (forall tag tag_id dwg,
       generate_fiducial tag n tag_id width print_label = Ok dwg ->
       size dwg =
         (cm width,
          cm (if print_label then width + lit 2 * (width / of_int (n + 2))
              else width))) /\
    (forall tag tag_id,
       square (Z.to_nat n) tag ->
       exists dwg,
         generate_fiducial tag n tag_id width print_label = Ok dwg /\
         size dwg =
           (cm width,
            cm (if print_label then width + lit 2 * (width / of_int (n + 2))
                else width))).
Proof.
  intros Hn _. eexists. split; [apply computeGeometry_ok, Hn |].
  split; [reflexivity |]. split; [reflexivity |]. split; [reflexivity |].
  split; [reflexivity |].
  assert (Hsize : forall tag tag_id dwg,
            generate_fiducial tag n tag_id width print_label = Ok dwg ->
            size dwg =
              (cm width,
               cm (if print_label
                   then width + lit 2 * (width / of_int (n + 2))
                   else width))).
  { intros tag tag_id dwg. unfold generate_fiducial.
    rewrite (computeGeometry_ok _ _ Hn). simpl.
    intros H. apply render_size in H. exact H. }
  split; [exact Hsize |].
  intros tag tag_id Hsq. unfold generate_fiducial.
  rewrite (computeGeometry_ok _ _ Hn). simpl.
  rewrite render_ok.
  - eexists. split; reflexivity.
  - exact Hsq.
  - destruct print_label; simpl; [discriminate | intros H; discriminate H].
Qed.

Lemma C2_canvas_size_witness :
  exists g,
    computeGeometry 4 (lit 5) true = Ok g /\
    square_side g = lit 5 / of_int (4 + 2) /\
    fiducial_size g = (lit 5, lit 5 + lit 2 * (lit 5 / of_int (4 + 2))) /\
    fiducial_size g = (lit 5, lit 5 + lit 2 * square_side g) /\
    fst (fiducial_size g) = lit 5 /\
    (forall tag tag_id dwg,
       generate_fiducial tag 4 tag_id (lit 5) true = Ok dwg ->
       size dwg =
         (cm (lit 5), cm (lit 5 + lit 2 * (lit 5 / of_int (4 + 2))))) /\
    (forall tag tag_id,
       square (Z.to_nat 4) tag ->
       exists dwg,
         generate_fiducial tag 4 tag_id (lit 5) true = Ok dwg /\
         size dwg =
           (cm (lit 5), cm (lit 5 + lit 2 * (lit 5 / of_int (4 + 2))))).
Proof. apply (C2_canvas_size 4 (lit 5) true); [lia | reflexivity]. Defined.



(* ================================================================== *)
(** * Drawing properties *)

Lemma buildDrawing_layout (tag : Tag) (n tag_id : Z) (width : Qc)
    (print_label : bool) :
  square (Z.to_nat n) tag ->
  buildDrawing tag n tag_id (layout n width print_label) print_label =
  Ok (emission tag n tag_id (layout n width print_label) print_label).
Proof.
  intros Hsq. apply buildDrawing_ok; [exact Hsq |].
  destruct print_label; simpl; [discriminate | intros H; discriminate H].
Qed.

Lemma plus_cancel_l (x a b : Qc) : x + a = x + b -> a = b.
Proof.
  intros H. assert (E : forall c, c = (x + c) - x) by (intros c; ring).
  rewrite (E a), (E b), H. reflexivity.
Qed.

Lemma mult_cancel_l (s a b : Qc) : s <> 0 -> s * a = s * b -> a = b.
Proof.
  intros Hs H. assert (E : forall c, c = (s * c) / s) by (intros c; field; exact Hs).
  rewrite (E a), (E b), H. reflexivity.
Qed.

Lemma offset_inj (x s : Qc) (a b : nat) :
  s <> 0 -> x + s * of_int (Z.of_nat a) = x + s * of_int (Z.of_nat b) -> a = b.
Proof.
  intros Hs H. apply plus_cancel_l, (mult_cancel_l _ _ _ Hs), of_int_inj in H.
  lia.
Qed.

Lemma module_rect_inj (g : Geometry) (i j i' j' : nat) :
  fst (square_size g) <> 0 ->
  module_rect g i j = module_rect g i' j' -> i = i' /\ j = j'.
Proof.
  intros Hs H.
  pose proof (f_equal (fun p => match p with
                                | rect (x, _) _ _ _ => number x
                                | _ => 0
                                end) H) as Hx.
  pose proof (f_equal (fun p => match p with
                                | rect (_, y) _ _ _ => number y
                                | _ => 0
                                end) H) as Hy.
  cbv beta iota delta [module_rect cm number] in Hx, Hy.
  split; [exact (offset_inj _ _ _ _ Hs Hy) | exact (offset_inj _ _ _ _ Hs Hx)].
Qed.

Lemma filter_all {A} (f : A -> bool) (l : list A) :
  (forall x, In x l -> f x = true) -> filter f l = l.
Proof.
  induction l as [| x l IH]; intros H; simpl; [reflexivity |].
  rewrite (H x) by (left; reflexivity). f_equal. apply IH.
  intros y Hy. apply H. right. exact Hy.
Qed.

Lemma filter_cons_false {A} (f : A -> bool) (x : A) (l : list A) :
  f x = false -> filter f (x :: l) = filter f l.
Proof. intros H. simpl. rewrite H. reflexivity. Qed.

Lemma light_rects_white (tag : Tag) (n : Z) (g : Geometry) :
  filter is_light_rect (light_rects tag n g) = light_rects tag n g.
Proof.
  apply filter_all. intros p Hp. unfold light_rects in Hp.
  rewrite in_map_iff in Hp. destruct Hp as [c [E _]]. subst p. reflexivity.
Qed.

Lemma light_rects_length (tag : Tag) (n : Z) (g : Geometry) :
  List.length (light_rects tag n g) =
  List.length (light_cells (Z.to_nat n) tag).
Proof. unfold light_rects. apply length_map. Qed.

(** C3: for every [n >= 1] and width [> 0] the tag block starts one
    module in from the top-left corner, the second primitive of the
    drawing is the black rectangle at that point with sides of [n]
    modules, and the block with one module on its left and right fills
    the width of the sheet, with one module above it and one module
    below it before the label band, which starts at height [width]. *)
Theorem C3_tag_block_inscribed (tag : Tag) (n tag_id : Z) (width : Qc)
    (print_label : bool) :
  (1 <= n)%Z -> 0 < width -> square (Z.to_nat n) tag ->
  exists g prims,
    computeGeometry n width print_label = Ok g /\
    buildDrawing tag n tag_id g print_label = Ok prims /\
    let m := square_side g in
    let side := of_int n * m in
    0 < m /\
    april_org g = (m, m) /\
    nth_error prims 1 =
      Some (rect (cm m, cm m) (cm side, cm side) "black" "black") /\
    fst (april_org g) + side + m = fst (fiducial_size g) /\
    snd (april_org g) + side + m = width /\
    snd (fiducial_size g) =
      (if print_label then width + lit 2 * m else width).
Proof.
  intros Hn Hw Hsq. exists (layout n width print_label). eexists.
  split; [apply computeGeometry_ok, Hn |].
  split; [apply buildDrawing_layout, Hsq |].
  cbv zeta. unfold layout at 1 2 3 4 5. cbv beta iota zeta delta [square_side].
  split; [apply module_size_pos; assumption |].
  split; [reflexivity |]. split; [reflexivity |].
  unfold layout. cbv beta iota zeta delta [april_org fiducial_size fst snd].
  split; [apply block_and_margins, Hn |].
  split; [apply block_and_margins, Hn | reflexivity].
Qed.

Lemma C3_tag_block_inscribed_witness :
  exists g prims,
    computeGeometry 4 (lit 5) true = Ok g /\
    buildDrawing scenario_tag 4 7 g true = Ok prims /\
    let m := square_side g in
    let side := of_int 4 * m in
    0 < m /\
    april_org g = (m, m) /\
    nth_error prims 1 =
      Some (rect (cm m, cm m) (cm side, cm side) "black" "black") /\
    fst (april_org g) + side + m = fst (fiducial_size g) /\
    snd (april_org g) + side + m = lit 5 /\
    snd (fiducial_size g) = lit 5 + lit 2 * m.
Proof.
  apply (C3_tag_block_inscribed scenario_tag 4 7 (lit 5) true);
    [lia | reflexivity | split; [reflexivity | repeat constructor]].
Defined.

(** C4: for every square bitmap the drawing is the two background
    rectangles, then one white square per light cell and none for any
    other cell, in row-major order, then primitives that are not
    rectangles.  The square of cell [(i, j)] sits at the tag origin plus
    [(j * m, i * m)] and has sides [m], the module size; the number of
    white squares is the number of light cells. *)
Theorem C4_light_modules (tag : Tag) (n tag_id : Z) (width : Qc)
    (print_label : bool) :
  (1 <= n)%Z -> 0 < width -> square (Z.to_nat n) tag ->
  exists g prims lights rest,
    computeGeometry n width print_label = Ok g /\
    buildDrawing tag n tag_id g print_label = Ok prims /\
    prims = background g :: tag_block n g :: lights ++ rest /\
    let m := square_side g in
    lights =
      map (fun c =>
             rect (cm (fst (april_org g) + of_int (Z.of_nat (snd c)) * m),
                   cm (snd (april_org g) + of_int (Z.of_nat (fst c)) * m))
                  (cm m, cm m) "white" "white")
          (filter (fun c => (cell_value tag c =? 255)%Z)
                  (cells (Z.to_nat n))) /\
    List.length lights = List.length (light_cells (Z.to_nat n) tag) /\
    filter is_light_rect (tag_block n g :: lights ++ rest) = lights /\
    forallb (fun p => negb (is_rect p)) rest = true.
Proof.
  intros Hn Hw Hsq. exists (layout n width print_label).
  eexists. exists (light_rects tag n (layout n width print_label)). eexists.
  split; [apply computeGeometry_ok, Hn |].
  split; [apply buildDrawing_layout, Hsq |].
  split; [reflexivity |]. cbv zeta.
  split.
  { unfold light_rects, light_cells. apply map_ext. intros [i j].
    unfold module_rect, layout.
    cbv beta iota zeta delta [april_org square_size square_side fst snd].
    rewrite (Qcmult_comm (module_size n width) (of_int (Z.of_nat j))).
    rewrite (Qcmult_comm (module_size n width) (of_int (Z.of_nat i))).
    reflexivity. }
  split; [apply light_rects_length |].
  split.
  - rewrite filter_cons_false by reflexivity.
    rewrite filter_app, light_rects_white.
    destruct print_label; simpl; apply app_nil_r.
  - destruct print_label; reflexivity.
Qed.

Lemma C4_light_modules_witness :
  exists g prims lights rest,
    computeGeometry 4 (lit 5) true = Ok g /\
    buildDrawing scenario_tag 4 7 g true = Ok prims /\
    prims = background g :: tag_block 4 g :: lights ++ rest /\
    let m := square_side g in
    lights =
      map (fun c =>
             rect (cm (fst (april_org g) + of_int (Z.of_nat (snd c)) * m),
                   cm (snd (april_org g) + of_int (Z.of_nat (fst c)) * m))
                  (cm m, cm m) "white" "white")
          (filter (fun c => (cell_value scenario_tag c =? 255)%Z)
                  (cells (Z.to_nat 4))) /\
    List.length lights = List.length (light_cells (Z.to_nat 4) scenario_tag) /\
    filter is_light_rect (tag_block 4 g :: lights ++ rest) = lights /\
    forallb (fun p => negb (is_rect p)) rest = true.
Proof.
  apply (C4_light_modules scenario_tag 4 7 (lit 5) true);
    [lia | reflexivity | split; [reflexivity | repeat constructor]].
Defined.

Lemma light_rects_are_rects (tag : Tag) (n : Z) (g : Geometry) :
  forallb is_rect (light_rects tag n g) = true.
Proof.
  apply forallb_forall. intros p Hp. unfold light_rects in Hp.
  rewrite in_map_iff in Hp. destruct Hp as [c [E _]]. subst p. reflexivity.
Qed.

(** C5: for every square bitmap, [n >= 1] and width [> 0], the drawing
    is, in this order: the white rectangle over the whole sheet, the
    black rectangle of the tag block, one white square of side [m] at
    [(m + j * m, m + i * m)] for each cell [(i, j)] equal to 255, row by
    row, and then, exactly when a label is asked for, the caption
    ["id: <tag_id>"] at the caption origin with the font size, the y
    axis line and the letter "y", the z axis line and the letter "z",
    and the dot on the origin of the axes with the font size as radius.
    Here [m] is [width / (n + 2)], and every number is written out from
    [width] and [m].  Without a label every primitive is a rectangle. *)
Theorem C5_emission_order (tag : Tag) (n tag_id : Z) (width : Qc)
    (print_label : bool) :
  (1 <= n)%Z -> 0 < width -> square (Z.to_nat n) tag ->
  exists g prims,
    computeGeometry n width print_label = Ok g /\
    buildDrawing tag n tag_id g print_label = Ok prims /\
    let m := width / of_int (n + 2) in
    let height := if print_label then width + lit 2 * m else width in
    let font := width / lit 5 in
    let caption_at := (cm (m * lit 1.25), cm (width + m * lit 1.25)) in
    let ax := width - m * lit 2 in
    let ay := width + m * lit 1.25 in
    let yx := ax + lit 0.75 * m in
    let zy := ay - lit 0.75 * m in
    prims =
      [rect (bare 0, bare 0) (cm width, cm height) "white" "white";
       rect (cm m, cm m) (cm (of_int n * m), cm (of_int n * m))
            "black" "black"]
      ++ map (fun c =>
                rect (cm (m + of_int (Z.of_nat (snd c)) * m),
                      cm (m + of_int (Z.of_nat (fst c)) * m))
                     (cm m, cm m) "white" "white")
             (filter (fun c => (cell_value tag c =? 255)%Z)
                     (cells (Z.to_nat n)))
      ++ (if print_label
          then [text ("id: " ++ str tag_id) caption_at (em font)
                     "black" "black";
                line (cm ax, cm ay) (cm yx, cm ay)
                     "black" "black" (bare font);
                text "y" (cm (yx * lit 1.04), cm ay)
                     (em (font * lit 0.7)) "black" "black";
                line (cm ax, cm ay) (cm ax, cm zy)
                     "black" "black" (bare font);
                text "z" (cm (ax * lit 0.9), cm (zy * lit 1.05))
                     (em (font * lit 0.7)) "black" "black";
                circle (cm ax, cm ay) (bare font)
                       "black" "black" (bare font)]
          else []) /\
    (print_label = false -> forallb is_rect prims = true).
Proof.
  intros Hn Hw Hsq. exists (layout n width print_label). eexists.
  split; [apply computeGeometry_ok, Hn |].
  split; [apply buildDrawing_layout, Hsq |].
  cbv zeta. split.
  - unfold emission.
    apply (f_equal2 (@app Primitive)); [| apply (f_equal2 (@app Primitive))].
    + destruct print_label; reflexivity.
    + unfold light_rects, light_cells. apply map_ext. intros [i j].
      unfold module_rect, layout, module_size, cm.
      cbv beta iota zeta delta [april_org square_size fst snd].
      apply (f_equal2 (fun a b => rect a b _ _)); [same_pair | reflexivity].
    + destruct print_label; [| reflexivity].
      cbn [label layout].
      unfold label_primitives, caption, axis_line, y_text, z_text, axis_dot,
        label_geometry, padd, module_size, cm, em, bare.
      cbv beta iota zeta delta [caption_org axis_org y_point z_point
                                font_size fst snd].
      repeat (apply f_equal2;
              [ first
                  [ apply (f_equal2 (fun a b => text _ a b _ _));
                    [same_pair | same_length]
                  | apply (f_equal3 (fun a b c => line a b _ _ c));
                    [same_pair | same_pair | same_length]
                  | apply (f_equal3 (fun a b c => circle a b _ _ c));
                    [same_pair | same_length | same_length] ]
              | ]).
      reflexivity.
  - intros ->. unfold emission. rewrite app_nil_r.
    change (forallb is_rect (light_rects tag n (layout n width false)) = true).
    apply light_rects_are_rects.
Qed.

Lemma C5_emission_order_witness :
  exists g prims,
    computeGeometry 4 (lit 5) true = Ok g /\
    buildDrawing scenario_tag 4 7 g true = Ok prims /\
    let m := lit 5 / of_int (4 + 2) in
    let height := lit 5 + lit 2 * m in
    let font := lit 5 / lit 5 in
    let caption_at := (cm (m * lit 1.25), cm (lit 5 + m * lit 1.25)) in
    let ax := lit 5 - m * lit 2 in
    let ay := lit 5 + m * lit 1.25 in
    let yx := ax + lit 0.75 * m in
    let zy := ay - lit 0.75 * m in
    prims =
      [rect (bare 0, bare 0) (cm (lit 5), cm height) "white" "white";
       rect (cm m, cm m) (cm (of_int 4 * m), cm (of_int 4 * m))
            "black" "black"]
      ++ map (fun c =>
                rect (cm (m + of_int (Z.of_nat (snd c)) * m),
                      cm (m + of_int (Z.of_nat (fst c)) * m))
                     (cm m, cm m) "white" "white")
             (filter (fun c => (cell_value scenario_tag c =? 255)%Z)
                     (cells (Z.to_nat 4)))
      ++ [text ("id: " ++ str 7) caption_at (em font) "black" "black";
          line (cm ax, cm ay) (cm yx, cm ay) "black" "black" (bare font);
          text "y" (cm (yx * lit 1.04), cm ay)
               (em (font * lit 0.7)) "black" "black";
          line (cm ax, cm ay) (cm ax, cm zy) "black" "black" (bare font);
          text "z" (cm (ax * lit 0.9), cm (zy * lit 1.05))
               (em (font * lit 0.7)) "black" "black";
          circle (cm ax, cm ay) (bare font) "black" "black" (bare font)] /\
    (true = false -> forallb is_rect prims = true).
Proof.
  apply (C5_emission_order scenario_tag 4 7 (lit 5) true);
    [lia | reflexivity | split; [reflexivity | repeat constructor]].
Defined.






(* ================================================================== *)
(** * The labelled scenario *)

Lemma Ok_inj {A} (a b : A) : Ok a = Ok b -> a = b.
Proof.
  intros H. exact (f_equal (fun r => match r with Ok x => x | Raise _ => a end) H).
Qed.

Lemma Some_inj {A} (a b : A) : Some a = Some b -> a = b.
Proof.
  intros H. exact (f_equal (fun r => match r with Some x => x | None => a end) H).
Qed.

Lemma scenario_square : square (Z.to_nat 4) scenario_tag.
Proof. split; [reflexivity | repeat constructor]. Qed.

Lemma scenario_drawing :
  let g := layout 4 (lit 5) true in
  let l := label_geometry (lit 5) (module_size 4 (lit 5)) in
  buildDrawing scenario_tag 4 7 g true =
  Ok [background g; tag_block 4 g; module_rect g 0 0;
      caption 7 l; axis_line l (y_point l); y_text l;
      axis_line l (z_point l); z_text l; axis_dot l].
Proof.
  cbv zeta. rewrite (buildDrawing_layout _ _ _ _ _ scenario_square).
  reflexivity.
Qed.

(** C7, as the code has it: in the labelled scenario the caption "id: 7"
    sits at about (1.0417, 6.0417), and the drawing has besides it two
    lines, the letters "y" and "z", and one circle on the origin of the
    axes. *)
Theorem C7_labelled_scenario : labelled_scenario 1.0417 6.0417.
Proof.
  exists (layout 4 (lit 5) true).
  exists (label_geometry (lit 5) (module_size 4 (lit 5))). eexists.
  split; [apply computeGeometry_ok; lia |]. split; [reflexivity |].
  split; [apply scenario_drawing |].
  split; [split; vm_compute; intros H; discriminate H |].
  split; [split; vm_compute; intros H; discriminate H |].
  split; [do 3 right; left; reflexivity |].
  repeat split; reflexivity.
Qed.

(** C7, as stated: the caption of the labelled scenario is not at about
    (1.0417, 5.8333); its height is more than 5.8333 + 0.00005. *)
Lemma C7_counterexample : ~ labelled_scenario 1.0417 5.8333.
Proof.
  intros [g [l [prims [Hg [Hl [_ [_ [[_ Hhi] _]]]]]]]].
  rewrite computeGeometry_ok in Hg by lia.
  apply Ok_inj in Hg. subst g.
  cbv beta iota zeta delta [layout label] in Hl.
  apply Some_inj in Hl. subst l.
  vm_compute in Hhi. apply Hhi. reflexivity.
Qed.

(* ================================================================== *)
(** * Units of the emitted scalars *)

Lemma light_rects_units (tag : Tag) (n : Z) (g : Geometry) :
  forallb units_as_drawn (light_rects tag n g) = true.
Proof.
  apply forallb_forall. intros p Hp. unfold light_rects in Hp.
  rewrite in_map_iff in Hp. destruct Hp as [c [E _]]. subst p. reflexivity.
Qed.

(** C8, as the code has it: in every drawing the first primitive is the
    sheet rectangle, whose origin is the bare [(0, 0)] and whose size is
    in centimetres; in every primitive after it, each position and each
    rectangle size is in centimetres, each font size is in em, and each
    stroke width and the radius of the circle are bare numbers.  With a
    label the caption (font size in em) and the circle (bare radius and
    stroke width) are among them. *)
Theorem C8_units_as_drawn (tag : Tag) (n tag_id : Z) (width : Qc)
    (print_label : bool) :
  (1 <= n)%Z -> 0 < width -> square (Z.to_nat n) tag ->
  exists g prims others,
    computeGeometry n width print_label = Ok g /\
    buildDrawing tag n tag_id g print_label = Ok prims /\
    prims =
      rect (bare 0, bare 0)
           (cm width,
            cm (if print_label then width + lit 2 * (width / of_int (n + 2))
                else width))
           "white" "white" :: others /\
    forallb units_after_sheet others = true /\
    List.length others =
      (1 + List.length (light_cells (Z.to_nat n) tag)
       + (if print_label then 6 else 0))%nat /\
    forallb units_as_drawn prims = true /\
    (print_label = true ->
     exists l, label g = Some l /\
       In (text ("id: " ++ str tag_id)
                (cm (fst (caption_org l)), cm (snd (caption_org l)))
                (em (font_size l)) "black" "black") others /\
       In (line (cm (fst (axis_org l)), cm (snd (axis_org l)))
                (cm (fst (y_point l)), cm (snd (y_point l)))
                "black" "black" (bare (font_size l))) others /\
       In (circle (cm (fst (axis_org l)), cm (snd (axis_org l)))
                  (bare (font_size l)) "black" "black" (bare (font_size l)))
          others).
Proof.
  intros Hn Hw Hsq. exists (layout n width print_label). eexists. eexists.
  split; [apply computeGeometry_ok, Hn |].
  split; [apply buildDrawing_layout, Hsq |].
  split; [destruct print_label; reflexivity |].
  split; [| split; [| split]].
  - cbn [forallb]. rewrite forallb_app.
    assert (Hl : forallb units_after_sheet
                   (light_rects tag n (layout n width print_label)) = true).
    { apply forallb_forall. intros p Hp. unfold light_rects in Hp.
      rewrite in_map_iff in Hp. destruct Hp as [c [E _]]. subst p.
      reflexivity. }
    rewrite Hl. destruct print_label; reflexivity.
  - cbn [List.length]. rewrite length_app, light_rects_length.
    destruct print_label; simpl; lia.
  - unfold emission. rewrite !forallb_app. rewrite light_rects_units.
    assert (Hbg : forallb units_as_drawn
                    [background (layout n width print_label);
                     tag_block n (layout n width print_label)] = true).
    { cbn [forallb background tag_block units_as_drawn in_cm is_bare
             suffix number cm bare andb orb].
      rewrite Qc_eq_bool_refl. reflexivity. }
    rewrite Hbg. destruct print_label; reflexivity.
  - intros ->. eexists. split; [reflexivity |].
    cbn [label layout]. split; [| split]; right; apply in_or_app; right.
    + left. reflexivity.
    + right. left. reflexivity.
    + do 5 right. left. reflexivity.
Qed.

Lemma C8_units_as_drawn_witness :
  exists g prims others,
    computeGeometry 4 (lit 5) true = Ok g /\
    buildDrawing scenario_tag 4 7 g true = Ok prims /\
    prims =
      rect (bare 0, bare 0)
           (cm (lit 5), cm (lit 5 + lit 2 * (lit 5 / of_int (4 + 2))))
           "white" "white" :: others /\
    forallb units_after_sheet others = true /\
    List.length others =
      (1 + List.length (light_cells (Z.to_nat 4) scenario_tag) + 6)%nat /\
    forallb units_as_drawn prims = true /\
    (true = true ->
     exists l, label g = Some l /\
       In (text ("id: " ++ str 7)
                (cm (fst (caption_org l)), cm (snd (caption_org l)))
                (em (font_size l)) "black" "black") others /\
       In (line (cm (fst (axis_org l)), cm (snd (axis_org l)))
                (cm (fst (y_point l)), cm (snd (y_point l)))
                "black" "black" (bare (font_size l))) others /\
       In (circle (cm (fst (axis_org l)), cm (snd (axis_org l)))
                  (bare (font_size l)) "black" "black" (bare (font_size l)))
          others).
Proof.
  apply (C8_units_as_drawn scenario_tag 4 7 (lit 5) true);
    [lia | reflexivity | split; [reflexivity | repeat constructor]].
Defined.

(** C8, as stated: even leaving the sheet rectangle and its bare origin
    aside, the labelled scenario has font sizes in em and a circle whose
    radius is a bare number, so not every scalar of every primitive is a
    length in centimetres. *)
Lemma C8_counterexample :
  ~ (forall g prims,
       computeGeometry 4 (lit 5) true = Ok g ->
       buildDrawing scenario_tag 4 7 g true = Ok prims ->
       all_in_cm (tl prims) = true).
Proof.
  intros H.
  specialize (H _ _ (computeGeometry_ok 4 (lit 5) ltac:(lia) true)
                scenario_drawing).
  discriminate H.
Qed.

(* ================================================================== *)
(** * The layout on any side *)

Lemma computeGeometry_defined (n : Z) (width : Qc) (print_label : bool) :
  n <> (-2)%Z ->
  computeGeometry n width print_label = Ok (layout n width print_label).
Proof.
  intros Hn. unfold computeGeometry.
  rewrite truediv_ok by (apply of_int_nonzero; lia). reflexivity.
Qed.

(* ================================================================== *)
(** * The module loop on any bitmap *)

Lemma outcome_for {X} (xs : list X) (body : X -> M unit)
    (f : X -> option (list Primitive)) (e : exn) :
  (forall x, In x xs -> outcome (body x) (f x) e) ->
  outcome (for_ xs body) (gather f xs) e.
Proof.
  induction xs as [| x xs IH]; intros H; simpl.
  - exact emits_ret.
  - assert (Hx := H x (or_introl eq_refl)).
    assert (Hxs := IH (fun y Hy => H y (or_intror Hy))).
    destruct (f x) as [ps |]; simpl in Hx.
    + destruct (gather f xs) as [qs |]; simpl in Hxs |- *.
      * apply emits_seq; assumption.
      * intros d. unfold bind. rewrite Hx. simpl. apply Hxs.
    + intros d. unfold bind. rewrite Hx. reflexivity.
Qed.

Lemma Raise_inj {A} (e e' : exn) : @Raise A e = Raise e' -> e = e'.
Proof.
  intros H.
  exact (f_equal (fun r => match r with Raise x => x | Ok _ => e end) H).
Qed.

Lemma getitem_raises (tag : Tag) (i j : nat) (e : exn) :
  getitem tag i j = Raise e -> e = IndexError.
Proof.
  unfold getitem. destruct (nth_error tag i) as [row |].
  - destruct (nth_error row j); intros H; [discriminate H |].
    symmetry. exact (Raise_inj _ _ H).
  - intros H. symmetry. exact (Raise_inj _ _ H).
Qed.

Lemma getitem_value (tag : Tag) (i j : nat) (v : Z) :
  getitem tag i j = Ok v -> v = cell_value tag (i, j).
Proof.
  unfold getitem, cell_value. simpl.
  destruct (nth_error tag i) as [row |] eqn:Hrow; [| discriminate].
  destruct (nth_error row j) as [v' |] eqn:Hv; [| discriminate].
  intros H. apply Ok_inj in H. subst v'.
  rewrite (nth_error_nth tag i [] Hrow). symmetry.
  apply (nth_error_nth row j 0%Z Hv).
Qed.

Lemma cell_body_outcome (tag : Tag) (g : Geometry) (i j : nat) :
  outcome (bind (lift (getitem tag i j))
             (fun v => if (v =? 255)%Z then add (module_rect g i j) else ret tt))
          (cell_outcome tag g i j) IndexError.
Proof.
  unfold cell_outcome. destruct (getitem tag i j) as [v | e] eqn:E; simpl.
  - intros d. unfold bind, lift.
    destruct (v =? 255)%Z; [apply emits_add | apply emits_ret].
  - intros d. unfold bind, lift. rewrite (getitem_raises _ _ _ _ E). reflexivity.
Qed.

Lemma draw_modules_outcome (tag : Tag) (n : Z) (g : Geometry) :
  outcome (draw_modules tag n g)
          (gather (fun i => gather (cell_outcome tag g i) (range n)) (range n))
          IndexError.
Proof.
  unfold draw_modules. apply outcome_for. intros i _.
  apply outcome_for. intros j _. apply cell_body_outcome.
Qed.

Lemma gather_all {X} (f : X -> option (list Primitive))
    (h : X -> list Primitive) (xs : list X) :
  (forall x, In x xs -> f x = Some (h x)) ->
  gather f xs = Some (flat_map h xs).
Proof.
  induction xs as [| x xs IH]; intros H; simpl; [reflexivity |].
  rewrite (H x (or_introl eq_refl)), (IH (fun y Hy => H y (or_intror Hy))).
  reflexivity.
Qed.

Lemma gather_missing {X} (f : X -> option (list Primitive)) (xs : list X)
    (x : X) :
  In x xs -> f x = None -> gather f xs = None.
Proof.
  induction xs as [| y xs IH]; intros Hin Hx; [contradiction |].
  simpl. destruct Hin as [-> | Hin].
  - rewrite Hx. reflexivity.
  - rewrite (IH Hin Hx). destruct (f y); reflexivity.
Qed.

Lemma in_bounds_true (n : nat) (tag : Tag) :
  in_bounds n tag = true <->
  forall i j, (i < n)%nat -> (j < n)%nat ->
    getitem tag i j = Ok (cell_value tag (i, j)).
Proof.
  unfold in_bounds. rewrite forallb_forall. split.
  - intros H i j Hi Hj. specialize (H (i, j) (proj2 (in_cells n i j) (conj Hi Hj))).
    simpl in H. destruct (getitem tag i j) as [v | e] eqn:E; [| discriminate H].
    rewrite (getitem_value _ _ _ _ E). reflexivity.
  - intros H [i j] Hc. apply in_cells in Hc. simpl.
    rewrite (H i j) by apply Hc. reflexivity.
Qed.

Lemma forallb_false {A} (f : A -> bool) (l : list A) :
  forallb f l = false -> exists x, In x l /\ f x = false.
Proof.
  induction l as [| x l IH]; simpl; intros H; [discriminate H |].
  destruct (f x) eqn:E.
  - destruct (IH H) as [y [Hy Hf]]. exists y. auto.
  - exists x. auto.
Qed.

Lemma in_bounds_false (n : nat) (tag : Tag) :
  in_bounds n tag = false ->
  exists i j, (i < n)%nat /\ (j < n)%nat /\ getitem tag i j = Raise IndexError.
Proof.
  intros H. apply forallb_false in H. destruct H as [[i j] [Hc H]].
  apply in_cells in Hc. simpl in H. exists i, j.
  destruct (getitem tag i j) as [v | e] eqn:E; [discriminate H |].
  pose proof (getitem_raises _ _ _ _ E) as He. subst e. tauto.
Qed.

Lemma gather_grid (tag : Tag) (n : Z) (g : Geometry) :
  gather (fun i => gather (cell_outcome tag g i) (range n)) (range n) =
  if in_bounds (Z.to_nat n) tag then Some (light_rects tag n g) else None.
Proof.
  unfold range. destruct (in_bounds (Z.to_nat n) tag) eqn:B.
  - rewrite in_bounds_true in B.
    unfold light_rects, light_cells, cells.
    rewrite <- (grid_filter_map _ (is_light tag)
                  (fun c => module_rect g (fst c) (snd c))).
    apply gather_all. intros i Hi. apply gather_all. intros j Hj.
    rewrite in_seq in Hi, Hj. unfold cell_outcome.
    rewrite B by lia. reflexivity.
  - apply in_bounds_false in B. destruct B as [i [j [Hi [Hj E]]]].
    apply (gather_missing _ _ i); [rewrite in_seq; lia |].
    apply (gather_missing _ _ j); [rewrite in_seq; lia |].
    unfold cell_outcome. rewrite E. reflexivity.
Qed.

(** The drawing code on a geometry whose label names are bound when
    they are needed: it appends the emission when the corner of the
    bitmap is in bounds and raises IndexError otherwise. *)
Lemma buildDrawing_any (tag : Tag) (n tag_id : Z) (g : Geometry)
    (print_label : bool) :
  (print_label = true -> label g <> None) ->
  buildDrawing tag n tag_id g print_label =
  if in_bounds (Z.to_nat n) tag
  then Ok (emission tag n tag_id g print_label)
  else Raise IndexError.
Proof.
  intros Hl. pose proof (draw_modules_outcome tag n g) as Hm.
  rewrite gather_grid in Hm. unfold buildDrawing, render, draw.
  destruct (in_bounds (Z.to_nat n) tag); simpl in Hm.
  - assert (E : emits (draw tag n tag_id g print_label)
                  (emission tag n tag_id g print_label)).
    { unfold draw, emission.
      apply (emits_seq _ _ [_]); [apply emits_add |].
      apply (emits_seq _ _ [_]); [apply emits_add |].
      apply emits_seq; [exact Hm |].
      destruct print_label; [| apply emits_ret].
      destruct (label g) as [l |] eqn:El.
      - apply draw_label_emits. exact El.
      - exfalso. apply Hl; reflexivity. }
    unfold draw in E. rewrite E. reflexivity.
  - unfold bind, add. rewrite Hm. reflexivity.
Qed.

Lemma generate_fiducial_any (tag : Tag) (n tag_id : Z) (width : Qc)
    (print_label : bool) :
  n <> (-2)%Z ->
  generate_fiducial tag n tag_id width print_label =
  if in_bounds (Z.to_nat n) tag
  then Ok (mkDrawing
             (cm width,
              cm (if print_label then width + lit 2 * module_size n width
                  else width))
             (emission tag n tag_id (layout n width print_label) print_label))
  else Raise IndexError.
Proof.
  intros Hn. unfold generate_fiducial.
  rewrite (computeGeometry_defined _ _ _ Hn). simpl.
  pose proof (buildDrawing_any tag n tag_id (layout n width print_label)
                print_label) as H.
  assert (Hl : print_label = true ->
               label (layout n width print_label) <> None).
  { intros ->. discriminate. }
  specialize (H Hl). unfold buildDrawing in H.
  destruct (render tag n tag_id (layout n width print_label) print_label)
    as [dwg |e] eqn:R; simpl in H.
  - destruct (in_bounds (Z.to_nat n) tag); [| discriminate H].
    apply Ok_inj in H. pose proof (render_size _ _ _ _ _ _ R) as Hs.
    destruct dwg as [sz es]. simpl in H, Hs. subst. reflexivity.
  - destruct (in_bounds (Z.to_nat n) tag); [discriminate H |].
    apply Raise_inj in H. subst e. reflexivity.
Qed.

Lemma getitem_defined (tag : Tag) (i j : nat) :
  (exists v, getitem tag i j = Ok v) <->
  (i < List.length tag)%nat /\ (j < List.length (nth i tag []))%nat.
Proof.
  unfold getitem. split.
  - intros [v H]. destruct (nth_error tag i) as [row |] eqn:Hrow; [| discriminate H].
    destruct (nth_error row j) as [v' |] eqn:Hv; [| discriminate H].
    rewrite (nth_error_nth tag i [] Hrow). split.
    + apply nth_error_Some. rewrite Hrow. discriminate.
    + apply nth_error_Some. rewrite Hv. discriminate.
  - intros [Hi Hj]. rewrite (nth_error_nth' tag [] Hi).
    rewrite (nth_error_nth' _ 0%Z Hj). eexists. reflexivity.
Qed.

Lemma in_bounds_rectangular (rows cols n : nat) (tag : Tag) :
  rectangular rows cols tag ->
  (in_bounds n tag = true <-> (n <= rows)%nat /\ (n <= cols)%nat).
Proof.
  intros [Hlen Hrows]. rewrite Forall_forall in Hrows.
  assert (Hrow : forall i, (i < rows)%nat -> List.length (nth i tag []) = cols).
  { intros i Hi. apply Hrows. apply nth_In. lia. }
  rewrite in_bounds_true. split.
  - intros H. destruct n as [| k]; [lia |].
    assert (Hk : exists v, getitem tag k k = Ok v).
    { eexists. apply H; lia. }
    apply getitem_defined in Hk. destruct Hk as [Hi Hj].
    rewrite Hrow in Hj by lia. lia.
  - intros [Hr Hc] i j Hi Hj.
    assert (Hd : exists v, getitem tag i j = Ok v).
    { apply getitem_defined. rewrite Hrow by lia. lia. }
    destruct Hd as [v Hv]. rewrite Hv. f_equal.
    apply (getitem_value _ _ _ _ Hv).
Qed.

(** X2: in exact arithmetic, for a bitmap of [rows] rows and [cols]
    columns, a side other than [-2] and any tag number, width and label
    flag, [generate_fiducial] returns a drawing exactly when the side is
    at most [rows] and at most [cols], and raises IndexError, returning
    no drawing, exactly when the side is larger than one of them. *)
Theorem X2_bitmap_bounds (tag : Tag) (rows cols : nat) (n tag_id : Z)
    (width : Qc) (print_label : bool) :
  rectangular rows cols tag -> n <> (-2)%Z ->
  ((exists dwg, generate_fiducial tag n tag_id width print_label = Ok dwg)
   <-> (n <= Z.of_nat rows)%Z /\ (n <= Z.of_nat cols)%Z) /\
  (generate_fiducial tag n tag_id width print_label = Raise IndexError
   <-> (Z.of_nat rows < n)%Z \/ (Z.of_nat cols < n)%Z).
Proof.
  intros Hrect Hn. rewrite (generate_fiducial_any _ _ _ _ _ Hn).
  pose proof (in_bounds_rectangular rows cols (Z.to_nat n) tag Hrect) as HB.
  destruct (in_bounds (Z.to_nat n) tag).
  - destruct (proj1 HB eq_refl) as [Hr Hc]. split; split.
    + intros _. lia.
    + intros _. eexists. reflexivity.
    + intros H. discriminate H.
    + intros H. lia.
  - assert (Hout : ~ ((Z.to_nat n <= rows)%nat /\ (Z.to_nat n <= cols)%nat)).
    { intros H. apply HB in H. discriminate H. }
    split; split.
    + intros [dwg H]. discriminate H.
    + intros H. exfalso. apply Hout. lia.
    + intros _. lia.
    + intros _. reflexivity.
Qed.

Lemma X2_bitmap_bounds_witness :
  ((exists dwg,
      generate_fiducial [[255; 0; 7]; [0; 255; 0]]%Z 3 7 (lit 5) true = Ok dwg)
   <-> (3 <= Z.of_nat 2)%Z /\ (3 <= Z.of_nat 3)%Z) /\
  (generate_fiducial [[255; 0; 7]; [0; 255; 0]]%Z 3 7 (lit 5) true
   = Raise IndexError
   <-> (Z.of_nat 2 < 3)%Z \/ (Z.of_nat 3 < 3)%Z).
Proof.
  apply (X2_bitmap_bounds [[255; 0; 7]; [0; 255; 0]]%Z 2 3 3 7 (lit 5) true);
    [split; [reflexivity | repeat constructor] | lia].
Defined.

Lemma forallb_agree {A} (f h : A -> bool) (l : list A) :
  (forall x, In x l -> f x = h x) -> forallb f l = forallb h l.
Proof.
  induction l as [| x l IH]; intros H; simpl; [reflexivity |].
  rewrite (H x (or_introl eq_refl)), (IH (fun y Hy => H y (or_intror Hy))).
  reflexivity.
Qed.

Lemma in_bounds_ext (n : nat) (tag tag' : Tag) :
  (forall i j, (i < n)%nat -> (j < n)%nat ->
     getitem tag i j = getitem tag' i j) ->
  in_bounds n tag = in_bounds n tag'.
Proof.
  intros H. unfold in_bounds. apply forallb_agree.
  intros [i j] Hc. apply in_cells in Hc. simpl. rewrite H by apply Hc.
  reflexivity.
Qed.

Lemma light_cells_ext (n : nat) (tag tag' : Tag) :
  in_bounds n tag = true ->
  (forall i j, (i < n)%nat -> (j < n)%nat ->
     getitem tag i j = getitem tag' i j) ->
  light_cells n tag = light_cells n tag'.
Proof.
  intros B H. pose proof B as B'. rewrite (in_bounds_ext _ _ _ H) in B'.
  rewrite in_bounds_true in B, B'.
  unfold light_cells. apply filter_ext_in. intros [i j] Hc.
  apply in_cells in Hc. destruct Hc as [Hi Hj]. unfold is_light.
  f_equal. apply Ok_inj. rewrite <- (B i j Hi Hj), <- (B' i j Hi Hj).
  apply H; assumption.
Qed.

(** X3: only the top-left [n] by [n] corner of the bitmap is read: two
    bitmaps that agree there, whatever rows, columns or values they have
    elsewhere, give the same result, drawing or exception. *)
Theorem X3_corner_only (tag tag' : Tag) (n tag_id : Z) (width : Qc)
    (print_label : bool) :
  (forall i j, (i < Z.to_nat n)%nat -> (j < Z.to_nat n)%nat ->
     getitem tag i j = getitem tag' i j) ->
  generate_fiducial tag n tag_id width print_label =
  generate_fiducial tag' n tag_id width print_label.
Proof.
  intros H. destruct (Z.eq_dec n (-2)) as [-> | Hn].
  - unfold generate_fiducial. rewrite computeGeometry_raises. reflexivity.
  - rewrite !(generate_fiducial_any _ _ _ _ _ Hn).
    rewrite <- (in_bounds_ext _ _ _ H).
    destruct (in_bounds (Z.to_nat n) tag) eqn:B; [| reflexivity].
    unfold emission, light_rects. rewrite (light_cells_ext _ _ _ B H).
    reflexivity.
Qed.

Lemma X3_corner_only_witness :
  generate_fiducial [[255; 0]; [7; 255]]%Z 2 7 (lit 5) true =
  generate_fiducial
    [[255; 0; 255; 1]; [7; 255; 0; 0]; [255; 255; 255; 255]]%Z
    2 7 (lit 5) true.
Proof.
  apply (X3_corner_only [[255; 0]; [7; 255]]%Z
           [[255; 0; 255; 1]; [7; 255; 0; 0]; [255; 255; 255; 255]]%Z
           2 7 (lit 5) true).
  intros i j Hi Hj. simpl in Hi, Hj.
  destruct i as [| [| i]]; [| | lia]; destruct j as [| [| j]];
    try lia; reflexivity.
Defined.

(** X4: a side that is zero or negative (and not [-2]) is not rejected:
    the loops run no round, the bitmap is not read, and the drawing is
    the sheet rectangle and the block rectangle, followed by the six
    label primitives when a label is asked for. *)
Theorem X4_nonpositive_side (tag : Tag) (n tag_id : Z) (width : Qc)
    (print_label : bool) :
  (n <= 0)%Z -> n <> (-2)%Z ->
  let g := layout n width print_label in
  generate_fiducial tag n tag_id width print_label =
  Ok (mkDrawing
        (cm width, cm (if print_label then width + lit 2 * square_side g
                       else width))
        ([background g; tag_block n g]
         ++ (if print_label
             then label_primitives tag_id (label_geometry width (square_side g))
             else []))).
Proof.
  intros Hle Hn. cbv zeta. rewrite (generate_fiducial_any _ _ _ _ _ Hn).
  unfold emission, light_rects.
  replace (Z.to_nat n) with 0%nat by lia. destruct print_label; reflexivity.
Qed.

Lemma X4_nonpositive_side_witness :
  let g := layout (-1) (lit 5) false in
  generate_fiducial [] (-1) 7 (lit 5) false =
  Ok (mkDrawing (cm (lit 5), cm (lit 5))
        ([background g; tag_block (-1) g] ++ [])).
Proof. apply (X4_nonpositive_side [] (-1) 7 (lit 5) false); lia. Defined.

(** X5: asking for the label changes the drawing in two ways only: the
    sheet, and with it the first rectangle, grows in height by two
    modules, and six primitives are appended; the block rectangle and
    the white squares are the same with and without the label. *)
Theorem X5_label_toggle (tag : Tag) (n tag_id : Z) (width : Qc) :
  n <> (-2)%Z -> in_bounds (Z.to_nat n) tag = true ->
  exists plain labelled,
    generate_fiducial tag n tag_id width false = Ok plain /\
    generate_fiducial tag n tag_id width true = Ok labelled /\
    size plain = (cm width, cm width) /\
    size labelled = (cm width, cm (width + lit 2 * module_size n width)) /\
    hd_error (elements plain) =
      Some (rect (bare 0, bare 0) (size plain) "white" "white") /\
    hd_error (elements labelled) =
      Some (rect (bare 0, bare 0) (size labelled) "white" "white") /\
    tl (elements labelled) =
      tl (elements plain)
      ++ label_primitives tag_id
           (label_geometry width (module_size n width)) /\
    List.length (elements labelled) = (List.length (elements plain) + 6)%nat.
Proof.
  intros Hn B. eexists. eexists.
  rewrite !(generate_fiducial_any _ _ _ _ _ Hn), B.
  split; [reflexivity |]. split; [reflexivity |].
  split; [reflexivity |]. split; [reflexivity |].
  split; [reflexivity |]. split; [reflexivity |].
  split.
  - unfold emission. cbn [elements app tl label layout].
    change (light_rects tag n (layout n width true))
      with (light_rects tag n (layout n width false)).
    rewrite app_nil_r. reflexivity.
  - unfold emission. cbn [elements label layout].
    change (light_rects tag n (layout n width true))
      with (light_rects tag n (layout n width false)).
    rewrite !length_app. simpl. lia.
Qed.

Lemma X5_label_toggle_witness :
  exists plain labelled,
    generate_fiducial scenario_tag 4 7 (lit 5) false = Ok plain /\
    generate_fiducial scenario_tag 4 7 (lit 5) true = Ok labelled /\
    size plain = (cm (lit 5), cm (lit 5)) /\
    size labelled = (cm (lit 5), cm (lit 5 + lit 2 * module_size 4 (lit 5))) /\
    hd_error (elements plain) =
      Some (rect (bare 0, bare 0) (size plain) "white" "white") /\
    hd_error (elements labelled) =
      Some (rect (bare 0, bare 0) (size labelled) "white" "white") /\
    tl (elements labelled) =
      tl (elements plain)
      ++ label_primitives 7 (label_geometry (lit 5) (module_size 4 (lit 5))) /\
    List.length (elements labelled) = (List.length (elements plain) + 6)%nat.
Proof. apply (X5_label_toggle scenario_tag 4 7 (lit 5)); [lia | reflexivity]. Defined.

(* ================================================================== *)
(** * Order on the embedded floats *)

(** Pushes the projection to [Q] through the operations of [Qc],
    everywhere. *)
Ltac push_this :=
  repeat (rewrite this_plus in * || rewrite this_mult in *
          || rewrite this_opp in * || rewrite this_inv in *
          || rewrite this_minus in * || rewrite this_div in *
          || rewrite this_lit in * || rewrite this_of_int in *).

(** What the order proofs need to know of the layout: the module size
    [m] is positive, [width = m * n + 2 * m], and [n >= 1]. *)
Lemma layout_facts (n : Z) (w : Qc) :
  (1 <= n)%Z -> 0 < w ->
  (0 < this (module_size n w) /\
   this w == this (module_size n w) * inject_Z n + 2 * this (module_size n w) /\
   1 <= inject_Z n)%Q.
Proof.
  intros Hn Hw. split; [exact (module_size_pos n w Hn Hw) |]. split.
  - pose proof (module_size_exact n w Hn) as E.
    apply (f_equal this) in E. rewrite <- E at 1.
    rewrite this_mult, this_of_int, inject_Z_plus. ring.
  - rewrite (Zle_Qle 1 n) in Hn. exact Hn.
Qed.

Lemma index_facts (n : Z) (j : nat) :
  (Z.of_nat j < n)%Z ->
  (0 <= inject_Z (Z.of_nat j) /\ inject_Z (Z.of_nat j) + 1 <= inject_Z n)%Q.
Proof.
  intros Hj. split.
  - change 0%Q with (inject_Z 0). rewrite <- Zle_Qle. lia.
  - change 1%Q with (inject_Z 1). rewrite <- inject_Z_plus, <- Zle_Qle. lia.
Qed.

(* ================================================================== *)
(** * Rectangles and the sheet *)

Lemma module_rect_on_sheet (n : Z) (w : Qc) (pl : bool) (i j : nat) (H : Qc) :
  (1 <= n)%Z -> 0 < w -> (Z.of_nat i < n)%Z -> (Z.of_nat j < n)%Z -> w <= H ->
  rect_on_sheet w H (module_rect (layout n w pl) i j).
Proof.
  intros Hn Hw Hi Hj HH.
  destruct (layout_facts n w Hn Hw) as [Hm [E Hk]].
  destruct (index_facts n i Hi) as [Hi0 Hi1].
  destruct (index_facts n j Hj) as [Hj0 Hj1].
  unfold module_rect, layout, rect_on_sheet.
  cbv beta iota zeta delta [april_org square_size fst snd number cm].
  unfold Qcle, Qclt in *. change (this 0) with 0%Q. push_this.
  set (m := this (module_size n w)) in *. set (k := inject_Z n) in *.
  set (a := inject_Z (Z.of_nat i)) in *. set (b := inject_Z (Z.of_nat j)) in *.
  repeat split; nra.
Qed.

(** X6: for a side [n >= 1], a width [> 0] and a bitmap that covers the
    corner, every rectangle of the drawing (the sheet rectangle, the
    block and each white square) has positive sides and lies on the
    sheet, with or without the label. *)
Theorem X6_rectangles_on_sheet (tag : Tag) (n tag_id : Z) (width : Qc)
    (print_label : bool) :
  (1 <= n)%Z -> 0 < width -> in_bounds (Z.to_nat n) tag = true ->
  exists dwg,
    generate_fiducial tag n tag_id width print_label = Ok dwg /\
    forall p, In p (elements dwg) ->
      rect_on_sheet (number (fst (size dwg))) (number (snd (size dwg))) p.
Proof.
  intros Hn Hw B. eexists.
  rewrite (generate_fiducial_any tag n tag_id width print_label) by lia.
  rewrite B. split; [reflexivity |].
  cbv beta iota delta [size elements fst snd number cm].
  set (H := if print_label then width + lit 2 * module_size n width else width).
  destruct (layout_facts n width Hn Hw) as [Hm [E Hk]].
  assert (HH : width <= H).
  { unfold H. destruct print_label; unfold Qcle; push_this; lra. }
  intros p Hp. unfold emission in Hp. rewrite !in_app_iff in Hp.
  destruct Hp as [Hp | [Hp | Hp]].
  - destruct Hp as [<- | [<- | []]].
    + unfold background, layout, rect_on_sheet.
      cbv beta iota zeta delta [fiducial_size fst snd number cm bare].
      fold H. unfold Qcle, Qclt in *. change (this 0) with 0%Q. push_this.
      repeat split; lra.
    + unfold tag_block, layout, rect_on_sheet.
      cbv beta iota zeta delta [april_org square_size fst snd number cm].
      unfold Qcle, Qclt in *. change (this 0) with 0%Q. push_this.
      set (m := this (module_size n width)) in *. set (k := inject_Z n) in *.
      repeat split; nra.
  - unfold light_rects in Hp. rewrite in_map_iff in Hp.
    destruct Hp as [[i j] [<- Hc]]. apply in_light_cells in Hc.
    cbn [fst snd]. apply module_rect_on_sheet; try assumption; lia.
  - destruct print_label; [| contradiction].
    cbn [label layout label_primitives] in Hp.
    repeat (destruct Hp as [<- | Hp]; [exact I |]). contradiction.
Qed.

Lemma X6_rectangles_on_sheet_witness :
  exists dwg,
    generate_fiducial scenario_tag 4 7 (lit 5) true = Ok dwg /\
    forall p, In p (elements dwg) ->
      rect_on_sheet (number (fst (size dwg))) (number (snd (size dwg))) p.
Proof.
  apply (X6_rectangles_on_sheet scenario_tag 4 7 (lit 5) true);
    [lia | reflexivity | reflexivity].
Defined.

(* ================================================================== *)
(** * The label and its band *)

(** X8: for a side [n >= 1] and a width [> 0], the start of the caption,
    the origin of the axes and the tips of both axes lie in the band of
    two modules under the square part of the sheet.  The letter "y"
    starts in the band exactly when [n <= 30], and the letter "z"
    exactly when [n <= 27]: on larger sides the factors 1.04 and 1.05
    push them off the sheet. *)
Theorem X8_label_in_band (n : Z) (width : Qc) :
  (1 <= n)%Z -> 0 < width ->
  let m := module_size n width in
  let l := label_geometry width m in
  in_band width m (caption_org l) /\
  in_band width m (axis_org l) /\
  in_band width m (y_point l) /\
  in_band width m (z_point l) /\
  (in_band width m (anchor (y_text l)) <-> (n <= 30)%Z) /\
  (in_band width m (anchor (z_text l)) <-> (n <= 27)%Z).
Proof.
  intros Hn Hw. cbv zeta.
  destruct (layout_facts n width Hn Hw) as [Hm [E Hk]].
  unfold in_band, label_geometry, y_text, z_text, anchor, padd.
  cbv beta iota zeta delta [caption_org axis_org y_point z_point fst snd
                            number cm].
  unfold Qcle, Qclt in *. change (this 0) with 0%Q. push_this.
  set (m := this (module_size n width)) in *. set (k := inject_Z n) in *.
  split; [repeat split; nra |]. split; [repeat split; nra |].
  split; [repeat split; nra |]. split; [repeat split; nra |].
  split; split.
  - intros [[_ Hx] _]. destruct (Z_le_gt_dec n 30) as [Hle | Hgt]; [exact Hle |].
    exfalso. assert (Hq : (31 <= k)%Q).
    { unfold k. change 31%Q with (inject_Z 31). rewrite <- Zle_Qle. lia. }
    nra.
  - intros Hle. assert (Hq : (k <= 30)%Q).
    { unfold k. change 30%Q with (inject_Z 30). rewrite <- Zle_Qle. exact Hle. }
    repeat split; nra.
  - intros [_ [_ Hy]]. destruct (Z_le_gt_dec n 27) as [Hle | Hgt]; [exact Hle |].
    exfalso. assert (Hq : (28 <= k)%Q).
    { unfold k. change 28%Q with (inject_Z 28). rewrite <- Zle_Qle. lia. }
    nra.
  - intros Hle. assert (Hq : (k <= 27)%Q).
    { unfold k. change 27%Q with (inject_Z 27). rewrite <- Zle_Qle. exact Hle. }
    repeat split; nra.
Qed.

Lemma X8_label_in_band_witness :
  let m := module_size 10 (lit 5) in
  let l := label_geometry (lit 5) m in
  in_band (lit 5) m (caption_org l) /\
  in_band (lit 5) m (axis_org l) /\
  in_band (lit 5) m (y_point l) /\
  in_band (lit 5) m (z_point l) /\
  (in_band (lit 5) m (anchor (y_text l)) <-> (10 <= 30)%Z) /\
  (in_band (lit 5) m (anchor (z_text l)) <-> (10 <= 27)%Z).
Proof. apply (X8_label_in_band 10 (lit 5)); [lia | reflexivity]. Defined.

(* ================================================================== *)
(** * The drawing and the bitmap *)

Lemma map_inj_in {A B} (f : A -> B) (l l' : list A) :
  (forall x y, f x = f y -> x = y) -> map f l = map f l' -> l = l'.
Proof.
  intros Hf. revert l'. induction l as [| x l IH]; intros [| y l'] H;
    try discriminate H; [reflexivity |].
  simpl in H. injection H as Hxy Hl. f_equal; [apply Hf, Hxy | apply IH, Hl].
Qed.

(** X9: for a side [n >= 1], a width [> 0] and two bitmaps that cover
    the corner, the two drawings are equal exactly when the bitmaps have
    the same light cells: the drawing tells the light cells, and nothing
    else of the bitmap. *)
Theorem X9_drawing_tells_light_cells (tag tag' : Tag) (n tag_id : Z)
    (width : Qc) (print_label : bool) :
  (1 <= n)%Z -> 0 < width ->
  in_bounds (Z.to_nat n) tag = true -> in_bounds (Z.to_nat n) tag' = true ->
  (generate_fiducial tag n tag_id width print_label =
   generate_fiducial tag' n tag_id width print_label
   <-> light_cells (Z.to_nat n) tag = light_cells (Z.to_nat n) tag').
Proof.
  intros Hn Hw B B'.
  rewrite !(generate_fiducial_any _ n tag_id width print_label) by lia.
  rewrite B, B'. unfold emission, light_rects. split.
  - intros H. apply Ok_inj in H. apply (f_equal elements) in H.
    cbn [elements] in H. apply app_inv_head, app_inv_tail in H.
    apply map_inj_in in H; [exact H |].
    intros [i j] [i' j'] E. cbn [fst snd] in E.
    apply module_rect_inj in E;
      [| apply (module_size_nonzero n width Hn Hw)].
    destruct E as [-> ->]. reflexivity.
  - intros ->. reflexivity.
Qed.

Lemma X9_drawing_tells_light_cells_witness :
  generate_fiducial [[255; 0]; [9; 255]]%Z 2 7 (lit 5) true =
  generate_fiducial [[255; 1]; [0; 255]]%Z 2 7 (lit 5) true
  <-> light_cells (Z.to_nat 2) [[255; 0]; [9; 255]]%Z =
      light_cells (Z.to_nat 2) [[255; 1]; [0; 255]]%Z.
Proof.
  apply (X9_drawing_tells_light_cells [[255; 0]; [9; 255]]%Z
           [[255; 1]; [0; 255]]%Z 2 7 (lit 5) true);
    [lia | reflexivity | reflexivity | reflexivity].
Defined.

(* ================================================================== *)
(** * Scaling the width *)

Lemma module_size_scale (n : Z) (k w : Qc) :
  module_size n (k * w) = k * module_size n w.
Proof. unfold module_size, Qcdiv. ring. Qed.

Section Scale.

Variables (n : Z) (k w : Qc) (pl : bool).

Ltac open_scale :=
  unfold layout, label_geometry, padd, scale, scale_pair,
    scale_length, cm, em, bare;
  rewrite ?module_size_scale;
  cbv beta iota zeta delta [fiducial_size april_org square_size square_side
    caption_org axis_org y_point z_point font_size fst snd number suffix].

Lemma scale_sheet :
  (cm (fst (fiducial_size (layout n (k * w) pl))),
   cm (snd (fiducial_size (layout n (k * w) pl)))) =
  scale_pair k (cm (fst (fiducial_size (layout n w pl))),
                cm (snd (fiducial_size (layout n w pl)))).
Proof. open_scale. destruct pl; same_pair. Qed.

Lemma scale_background :
  background (layout n (k * w) pl) = scale k (background (layout n w pl)).
Proof.
  unfold background. open_scale.
  destruct pl; (apply (f_equal2 (fun a b => rect a b _ _)); same_pair).
Qed.

Lemma scale_tag_block :
  tag_block n (layout n (k * w) pl) = scale k (tag_block n (layout n w pl)).
Proof.
  unfold tag_block. open_scale.
  apply (f_equal2 (fun a b => rect a b _ _)); same_pair.
Qed.

Lemma scale_module_rect (i j : nat) :
  module_rect (layout n (k * w) pl) i j =
  scale k (module_rect (layout n w pl) i j).
Proof.
  unfold module_rect. open_scale.
  apply (f_equal2 (fun a b => rect a b _ _)); same_pair.
Qed.

Lemma scale_label (tag_id : Z) :
  label_primitives tag_id (label_geometry (k * w) (module_size n (k * w))) =
  map (scale k) (label_primitives tag_id (label_geometry w (module_size n w))).
Proof.
  unfold label_primitives, caption, axis_line, y_text, z_text, axis_dot.
  cbn [map]. open_scale.
  repeat (apply f_equal2;
          [ first
              [ apply (f_equal2 (fun a b => text _ a b _ _));
                [same_pair | same_length]
              | apply (f_equal3 (fun a b c => line a b _ _ c));
                [same_pair | same_pair | same_length]
              | apply (f_equal3 (fun a b c => circle a b _ _ c));
                [same_pair | same_length | same_length] ]
          | ]).
  reflexivity.
Qed.

End Scale.

Lemma scale_emission (tag : Tag) (n tag_id : Z) (k w : Qc) (pl : bool) :
  emission tag n tag_id (layout n (k * w) pl) pl =
  map (scale k) (emission tag n tag_id (layout n w pl) pl).
Proof.
  unfold emission. rewrite !map_app. f_equal; [| f_equal].
  - cbn [map]. rewrite scale_background, scale_tag_block. reflexivity.
  - unfold light_rects. rewrite map_map. apply map_ext. intros c.
    apply scale_module_rect.
  - destruct pl; [| reflexivity]. cbn [label layout]. apply scale_label.
Qed.

(** X10: the drawing is homogeneous in the width.  For every bitmap,
    side, tag number, label flag and factor [k], running on the width
    [k * width] gives the drawing for [width] with every scalar of every
    primitive and of the sheet size made [k] times as large, font sizes
    and stroke widths included, and raises whenever the run on [width]
    raises. *)
Theorem X10_scales_with_width (tag : Tag) (n tag_id : Z) (k width : Qc)
    (print_label : bool) :
  generate_fiducial tag n tag_id (k * width) print_label =
  match generate_fiducial tag n tag_id width print_label with
  | Ok dwg => Ok (scale_drawing k dwg)
  | Raise e => Raise e
  end.
Proof.
  destruct (Z.eq_dec n (-2)) as [-> | Hn].
  - unfold generate_fiducial. rewrite !computeGeometry_raises. reflexivity.
  - rewrite !(generate_fiducial_any _ _ _ _ _ Hn).
    destruct (in_bounds (Z.to_nat n) tag); [| reflexivity].
    unfold scale_drawing. cbn [size elements].
    rewrite scale_emission. f_equal. f_equal.
    pose proof (scale_sheet n k width print_label) as H.
    unfold layout in H. cbv beta iota zeta delta [fiducial_size fst snd] in H.
    exact H.
Qed.

(* ================================================================== *)
(** * Tag numbers as text *)

Lemma to_int_nonnil (z : Z) :
  Z.to_int z <> Decimal.Pos Decimal.Nil /\ Z.to_int z <> Decimal.Neg Decimal.Nil.
Proof.
  destruct z as [| p | p]; simpl; split; intros H; try discriminate H;
    injection H as H; exact (DecimalPos.Unsigned.to_uint_nonnil p H).
Qed.

Lemma str_inj (a b : Z) : str a = str b -> a = b.
Proof.
  unfold str. intros H. apply DecimalZ.to_int_inj.
  apply (f_equal NilZero.int_of_string) in H.
  destruct (to_int_nonnil a) as [Ha1 Ha2]. destruct (to_int_nonnil b) as [Hb1 Hb2].
  rewrite !NilZero.isi in H by assumption.
  exact (Some_inj _ _ H).
Qed.

Lemma chars_app (s t : string) : chars (s ++ t) = chars s ++ chars t.
Proof.
  unfold chars. induction s as [| c s IH]; simpl; [reflexivity |].
  rewrite IH. reflexivity.
Qed.

Lemma chars_inj (s t : string) : chars s = chars t -> s = t.
Proof.
  unfold chars. intros H.
  rewrite <- (string_of_list_ascii_of_string s), H.
  apply string_of_list_ascii_of_string.
Qed.

Lemma digits_no_underscore (d : Decimal.uint) :
  ~ In "_"%char (chars (NilEmpty.string_of_uint d)).
Proof.
  unfold chars.
  induction d; simpl; intros H; try contradiction;
    destruct H as [H | H]; try discriminate H; exact (IHd H).
Qed.

Lemma str_no_underscore (z : Z) : no_underscore (str z).
Proof.
  assert (Hu : forall d, ~ In "_"%char (chars (NilZero.string_of_uint d))).
  { intros d. destruct d; try apply (digits_no_underscore (_ d)).
    simpl. intros [H | []]. discriminate H. }
  unfold no_underscore, str. destruct (Z.to_int z) as [d | d]; simpl.
  - apply Hu.
  - intros [H | H]; [discriminate H | exact (Hu d H)].
Qed.

(** A text is cut in one way only at its first separator. *)
Lemma cut_first {A} (c : A) (x x' y y' : list A) :
  ~ In c x -> ~ In c x' -> x ++ c :: y = x' ++ c :: y' -> x = x' /\ y = y'.
Proof.
  revert x'. induction x as [| a x IH]; intros [| a' x'] Hx Hx' H; simpl in *.
  - injection H as H. auto.
  - injection H as Hc _. exfalso. apply Hx'. left. symmetry. exact Hc.
  - injection H as Hc _. exfalso. apply Hx. left. exact Hc.
  - injection H as Ha H. subst a'.
    destruct (IH x') as [-> ->]; auto.
Qed.

(** And in one way only at its last separator. *)
Lemma cut_last {A} (c : A) (x x' y y' : list A) :
  ~ In c y -> ~ In c y' -> x ++ c :: y = x' ++ c :: y' -> x = x' /\ y = y'.
Proof.
  intros Hy Hy' H. apply (f_equal (@rev A)) in H.
  rewrite !rev_app_distr in H. simpl in H. rewrite <- !app_assoc in H.
  simpl in H. apply cut_first in H.
  - destruct H as [H1 H2]. split.
    + rewrite <- (rev_involutive x), <- (rev_involutive x'), H2. reflexivity.
    + rewrite <- (rev_involutive y), <- (rev_involutive y'), H1. reflexivity.
  - rewrite <- in_rev. exact Hy.
  - rewrite <- in_rev. exact Hy'.
Qed.

(** X11: a file name tells the tag family, the tag number and the text
    of the width it was made from (the label flag is not part of it).
    When the texts of the two widths hold no underscore, as no number
    printed by Python does, two names, or two names with the same
    extension, are equal only when the tag family, the tag number and
    the width text are equal; and a name with [.svg] is never a name
    with [.pdf]. *)
Theorem X11_filename_injective (tag_family tag_family' : string)
    (tag_id tag_id' : Z) (width_text width_text' : string) :
  no_underscore width_text -> no_underscore width_text' ->
  (filename tag_family tag_id width_text =
   filename tag_family' tag_id' width_text' ->
   tag_family = tag_family' /\ tag_id = tag_id' /\ width_text = width_text') /\
  ((filename tag_family tag_id width_text ++ ".svg")%string =
   (filename tag_family' tag_id' width_text' ++ ".svg")%string ->
   tag_family = tag_family' /\ tag_id = tag_id' /\ width_text = width_text') /\
  ((filename tag_family tag_id width_text ++ ".pdf")%string =
   (filename tag_family' tag_id' width_text' ++ ".pdf")%string ->
   tag_family = tag_family' /\ tag_id = tag_id' /\ width_text = width_text') /\
  (filename tag_family tag_id width_text ++ ".svg")%string <>
  (filename tag_family' tag_id' width_text' ++ ".pdf")%string.
Proof.
  intros Hw Hw'.
  assert (Hname : filename tag_family tag_id width_text =
                  filename tag_family' tag_id' width_text' ->
                  tag_family = tag_family' /\ tag_id = tag_id' /\
                  width_text = width_text').
  { intros H. apply (f_equal chars) in H. unfold filename in H.
    rewrite !chars_app in H. apply app_inv_head in H.
    assert (H' : (chars tag_family ++ "_"%char :: chars (str tag_id))
                 ++ "_"%char :: (chars width_text ++ chars "cm"%string) =
                 (chars tag_family' ++ "_"%char :: chars (str tag_id'))
                 ++ "_"%char :: (chars width_text' ++ chars "cm"%string)).
    { rewrite <- !app_assoc. exact H. }
    assert (Hcm : forall w, no_underscore w ->
                    ~ In "_"%char (chars w ++ chars "cm"%string)).
    { intros w Hn Hin. apply in_app_or in Hin. destruct Hin as [Hin | Hin].
      - exact (Hn Hin).
      - simpl in Hin. destruct Hin as [E | [E | []]]; discriminate E. }
    apply cut_last in H'; [| apply Hcm, Hw | apply Hcm, Hw'].
    destruct H' as [Hfi Ht]. apply app_inv_tail in Ht. apply chars_inj in Ht.
    apply cut_last in Hfi; [| apply str_no_underscore | apply str_no_underscore].
    destruct Hfi as [Hf Hi]. apply chars_inj in Hf. apply chars_inj, str_inj in Hi.
    auto. }
  assert (Hext : forall a b e : string, (a ++ e = b ++ e)%string -> a = b).
  { intros a b e H. apply (f_equal chars) in H. rewrite !chars_app in H.
    apply app_inv_tail in H. apply chars_inj, H. }
  split; [exact Hname |].
  split; [intros H; apply Hname, (Hext _ _ _ H) |].
  split; [intros H; apply Hname, (Hext _ _ _ H) |].
  intros H. apply (f_equal (fun s => rev (chars s))) in H.
  rewrite !chars_app, !rev_app_distr in H. simpl in H. discriminate H.
Qed.

Lemma X11_filename_injective_witness :
  (filename "tag36h11" 3 "5" = filename "tag36h11" 3 "5" ->
   "tag36h11"%string = "tag36h11"%string /\ 3%Z = 3%Z /\
   "5"%string = "5"%string) /\
  ((filename "tag36h11" 3 "5" ++ ".svg")%string = (filename "tag36h11" 3 "5" ++ ".svg")%string ->
   "tag36h11"%string = "tag36h11"%string /\ 3%Z = 3%Z /\
   "5"%string = "5"%string) /\
  ((filename "tag36h11" 3 "5" ++ ".pdf")%string = (filename "tag36h11" 3 "5" ++ ".pdf")%string ->
   "tag36h11"%string = "tag36h11"%string /\ 3%Z = 3%Z /\
   "5"%string = "5"%string) /\
  (filename "tag36h11" 3 "5" ++ ".svg")%string <> (filename "tag36h11" 3 "5" ++ ".pdf")%string.
Proof.
  apply (X11_filename_injective "tag36h11" "tag36h11" 3 3 "5" "5");
    intros [H | []]; discriminate H.
Defined.

(* ================================================================== *)
(** * The tag number and the drawing *)

Lemma app_same_length_tail {A} (l l' r r' : list A) :
  List.length r = List.length r' -> l ++ r = l' ++ r' -> r = r'.
Proof.
  intros Hlen H. apply (f_equal (@rev A)) in H. rewrite !rev_app_distr in H.
  assert (Hr : rev r = rev r').
  { apply (f_equal (firstn (List.length (rev r)))) in H.
    rewrite firstn_app, firstn_all, Nat.sub_diag in H. simpl in H.
    rewrite app_nil_r in H. rewrite H.
    rewrite !length_rev, Hlen, <- (length_rev r').
    rewrite firstn_app, firstn_all, Nat.sub_diag. simpl.
    apply app_nil_r. }
  rewrite <- (rev_involutive r), Hr. apply rev_involutive.
Qed.

Lemma labelled_elements (tag : Tag) (n tag_id : Z) (width : Qc)
    (dwg : Drawing) :
  generate_fiducial tag n tag_id width true = Ok dwg ->
  exists front,
    elements dwg =
    front ++ label_primitives tag_id
               (label_geometry width (module_size n width)).
Proof.
  intros H. destruct (Z.eq_dec n (-2)) as [-> | Hn].
  - unfold generate_fiducial in H. rewrite computeGeometry_raises in H.
    discriminate H.
  - rewrite (generate_fiducial_any _ _ _ _ _ Hn) in H.
    destruct (in_bounds (Z.to_nat n) tag); [| discriminate H].
    apply Ok_inj in H. subst dwg. cbn [elements]. unfold emission.
    cbn [label layout]. eexists. rewrite app_assoc. reflexivity.
Qed.

(** X12: a labelled drawing tells the tag number.  If two runs with a
    label return the same drawing, then, whatever bitmaps, sides and
    widths they were given, they were given the same tag number,
    negative numbers included: the caption ["id: <tag_id>"] is among the
    last six primitives and differs whenever the tag numbers do. *)
Theorem X12_label_tells_tag_id (tag tag' : Tag) (n n' tag_id tag_id' : Z)
    (width width' : Qc) (dwg : Drawing) :
  generate_fiducial tag n tag_id width true = Ok dwg ->
  generate_fiducial tag' n' tag_id' width' true = Ok dwg ->
  tag_id = tag_id' /\
  nth_error (rev (elements dwg)) 5 =
    Some (text ("id: " ++ str tag_id)
               (cm (width / of_int (n + 2) * lit 1.25),
                cm (width + width / of_int (n + 2) * lit 1.25))
               (em (width / lit 5)) "black" "black").
Proof.
  intros H H'.
  destruct (labelled_elements _ _ _ _ _ H) as [front E].
  destruct (labelled_elements _ _ _ _ _ H') as [front' E'].
  split.
  - rewrite E in E'. apply app_same_length_tail in E'; [| reflexivity].
    apply (f_equal (fun ps => match ps with
                              | text c _ _ _ _ :: _ => c
                              | _ => EmptyString
                              end)) in E'.
    cbn [label_primitives caption] in E'.
    apply str_inj. apply (f_equal chars) in E'. rewrite !chars_app in E'.
    apply app_inv_head in E'. apply chars_inj, E'.
  - rewrite E, rev_app_distr. reflexivity.
Qed.

Lemma X12_label_tells_tag_id_witness :
  7%Z = 7%Z /\
  nth_error
    (rev (elements
            (mkDrawing
               (cm (lit 5), cm (lit 5 + lit 2 * module_size 2 (lit 5)))
               (emission [[255; 0]; [9; 255]]%Z 2 7
                         (layout 2 (lit 5) true) true))))
    5 =
    Some (text ("id: " ++ str 7)
               (cm (lit 5 / of_int (2 + 2) * lit 1.25),
                cm (lit 5 + lit 5 / of_int (2 + 2) * lit 1.25))
               (em (lit 5 / lit 5)) "black" "black").
Proof.
  apply (X12_label_tells_tag_id [[255; 0]; [9; 255]]%Z [[255; 1]; [0; 255]]%Z
           2 2 7 7 (lit 5) (lit 5)
           (mkDrawing
              (cm (lit 5), cm (lit 5 + lit 2 * module_size 2 (lit 5)))
              (emission [[255; 0]; [9; 255]]%Z 2 7
                        (layout 2 (lit 5) true) true)));
    reflexivity.
Defined.
